(** * float16_t: a shallow embedding of [float16_t.hpp]

    The header defines a 16-bit floating-point type stored as a raw
    [std::uint16_t], two conversion routines between that pattern and
    the host's 32-bit [float], and a thin layer of operators, stream
    I/O, math wrappers and classification predicates on top.

    Machine integers are modelled as [Z] with every wrap-around written
    out.  A [float] is modelled by its 32-bit pattern: the source reads
    and writes it through the [float32] union ([f32.float_ = input;
    u32 = f32.bits_]), so the pattern is all the conversion code ever
    sees. *)

From Stdlib Require Import ZArith Lia Bool List QArith Qabs Qpower Lqa.
Import ListNotations.

Local Open Scope Z_scope.

(** ** Machine integers *)

Module Int.

Definition wrap16 (z : Z) : Z := z mod 2 ^ 16.
Definition wrap32 (z : Z) : Z := z mod 2 ^ 32.

(** Conversion of a [std::uint32_t] to [std::int32_t] (modular since
    C++20). *)
Definition to_int32 (z : Z) : Z :=
  let w := wrap32 z in if w <? 2 ^ 31 then w else w - 2 ^ 32.

Definition is_uint16 (z : Z) : Prop := 0 <= z < 2 ^ 16.
Definition is_uint32 (z : Z) : Prop := 0 <= z < 2 ^ 32.

(** A value used as a C++ condition: nonzero is true. *)
Definition truthy (z : Z) : bool := negb (z =? 0).

End Int.
Import Int.

(** ** namespace float16_t_private *)

Module float16_t_private.

(** [to_float16 val] is [float16{ static_cast<std::uint16_t>(val) }]. *)
Definition to_float16 (val : Z) : Z := wrap16 val.

(** The bit-field view [ieee_] of the [float16] union. *)
Definition frac_ (bits : Z) : Z := Z.land bits 0x3ff.
Definition exp_ (bits : Z) : Z := Z.land (Z.shiftr bits 10) 0x1f.
Definition sign_ (bits : Z) : Z := Z.land (Z.shiftr bits 15) 1.

(** The rounding test both narrowing paths share:
    [(c & round_bit) && (c & (3 * round_bit - 1))]. *)
Definition round_up (c round_bit : Z) : bool :=
  truthy (Z.land c round_bit)
  && truthy (Z.land c (wrap32 (3 * round_bit - 1))).

Definition float32_to_float16 (input : Z) : Z :=
  let u32 := input in
  let sign := Z.land u32 0x80000000 in
  let exponent := Z.land u32 0x7f800000 in
  let coef := Z.land u32 0x7fffff in
  if exponent =? 0x7f800000 then
    let nan_bit := if negb (coef =? 0) then 0x200 else 0 in
    to_float16
      (Z.lor (Z.lor (Z.lor (Z.shiftr sign 16) 0x7c00) nan_bit)
             (Z.shiftr coef 13))
  else
    let half_sign := Z.shiftr sign 16 in
    let unbiased_exponent := to_int32 (wrap32 (Z.shiftr exponent 23 - 127)) in
    let half_exponent := unbiased_exponent + 15 in
    if half_exponent =? 0x1f then to_float16 (Z.lor half_sign 0x7c00)
    else if half_exponent <=? 0 then
      if half_exponent <? -10 then to_float16 half_sign
      else
        let c := Z.lor coef 0x800000 in
        let half_coef := Z.shiftr c (14 - half_exponent) in
        let round_bit := wrap32 (Z.shiftl 1 (13 - half_exponent)) in
        let half_coef :=
          if round_up c round_bit then wrap32 (half_coef + 1) else half_coef in
        to_float16 (Z.lor half_sign half_coef)
    else
      let uhalf_exponent := wrap32 (Z.shiftl half_exponent 10) in
      let half_coef := Z.shiftr coef 13 in
      let round_bit := 0x1000 in
      if round_up coef round_bit then
        to_float16
          (wrap32 (Z.lor (Z.lor half_sign uhalf_exponent) half_coef + 1))
      else
        to_float16 (Z.lor (Z.lor half_sign uhalf_exponent) half_coef).

(** The loop [while (coef & 0x7f800000) { coef <<= 1; --exponent; }]
    on two [std::uint32_t] variables.  [None] means the fuel ran out
    before the loop condition became false. *)
Fixpoint renormalize (fuel : nat) (coef exponent : Z) : option (Z * Z) :=
  if truthy (Z.land coef 0x7f800000) then
    match fuel with
    | O => None
    | S fuel' =>
        renormalize fuel' (wrap32 (Z.shiftl coef 1)) (wrap32 (exponent - 1))
    end
  else Some (coef, exponent).

Definition float16_to_float32_fuel (fuel : nat) (input : Z) : option Z :=
  let sign := wrap32 (Z.shiftl (Z.land input 0x8000) 16) in
  let exponent := Z.shiftr (Z.land input 0x7c00) 10 in
  let coef := wrap32 (Z.shiftl (Z.land input 0x3ff) 13) in
  if exponent =? 0x1f then
    if coef =? 0 then Some (Z.lor (Z.lor sign 0x7f800000) coef)
    else Some (Z.lor (Z.lor sign 0x7fc00000) coef)
  else if exponent =? 0 then
    if coef =? 0 then Some sign
    else
      let exponent := wrap32 (exponent + 1) in
      match renormalize fuel coef exponent with
      | None => None
      | Some (coef, exponent) =>
          let coef := Z.land coef 0x7fffff in
          Some (Z.lor (Z.lor sign (wrap32 (Z.shiftl (wrap32 (exponent + 0x70)) 23)))
                      coef)
      end
  else
    Some (Z.lor (Z.lor sign (wrap32 (Z.shiftl (wrap32 (exponent + 0x70)) 23)))
                coef).

(** Each iteration shifts one more zero into the low end of a 32-bit
    variable, so 32 iterations are always enough. *)
Definition float16_to_float32 (input : Z) : option Z :=
  float16_to_float32_fuel 32 input.

End float16_t_private.
Import float16_t_private.

(** ** struct float16_t *)

(** [data_] holds the [bits_] member of the [float16] union. *)
Record float16_t : Set := mk_float16_t { data_ : Z }.

Module Float16.

(** [float16_t( std::uint16_t bits )]. *)
Definition of_bits (bits : Z) : float16_t := mk_float16_t bits.

(** [float16_t( float other )]. *)
Definition of_float (other : Z) : float16_t :=
  mk_float16_t (float32_to_float16 other).

(** [operator float()]. *)
Definition to_float (f : float16_t) : option Z :=
  float16_to_float32 (data_ f).

(** [operator std::uint16_t()]. *)
Definition to_uint16 (f : float16_t) : Z := data_ f.

(** Unary [operator -]: the operands are promoted to [int], the
    result is cast back to [std::uint16_t]. *)
Definition neg (f : float16_t) : float16_t :=
  of_bits (wrap16 (Z.lor (Z.land (data_ f) 0x7fff) (Z.lxor (data_ f) 0x8000))).

(** Unary [operator +]. *)
Definition pos (f : float16_t) : float16_t := f.

Definition abs (f : float16_t) : float16_t :=
  mk_float16_t (Z.land (data_ f) 0x7fff).

Definition fp16_infinity := of_bits 0x7c00.
Definition fp16_max := of_bits 0x7bff.
Definition fp16_max_subnormal := of_bits 0x3ff.
Definition fp16_min := of_bits 0xfbff.
Definition fp16_min_positive := of_bits 0x400.
Definition fp16_min_positive_subnormal := of_bits 0x1.
Definition fp16_nan := of_bits 0x7e00.
Definition fp16_infinity_negative := of_bits 0xfc00.
Definition fp16_one := of_bits 0x3c00.
Definition fp16_zero := of_bits 0x0.
Definition fp16_zero_negative := of_bits 0x8000.
Definition fp16_e := of_bits 0x4170.
Definition fp16_pi := of_bits 0x4248.

(** *** Classification predicates *)

Definition is_nan (f16 : float16_t) : bool :=
  0x7f80 <? Z.land (to_uint16 f16) 0x7fff.

Definition is_inf (f16 : float16_t) : bool :=
  Z.land (to_uint16 f16) 0x7fff =? 0x7f80.

Definition is_finite (f16 : float16_t) : bool :=
  negb (Z.land (to_uint16 f16) 0x7f80 =? 0x7f80).

Definition is_normal (f16 : float16_t) : bool :=
  let exponent := Z.land (to_uint16 f16) 0x7f80 in
  negb (exponent =? 0x7f80) && negb (exponent =? 0).

Definition is_positive (f16 : float16_t) : bool :=
  Z.land (to_uint16 f16) 0x8000 =? 0.

Definition is_negative (f16 : float16_t) : bool :=
  truthy (Z.land (to_uint16 f16) 0x8000).

(** The two categories the header has no predicate for, in terms of
    the bit-field view. *)
Definition is_zero (f16 : float16_t) : bool :=
  Z.land (to_uint16 f16) 0x7fff =? 0.

Definition is_subnormal (f16 : float16_t) : bool :=
  (exp_ (to_uint16 f16) =? 0) && negb (frac_ (to_uint16 f16) =? 0).

(** *** Math wrappers

    The host's [<cmath>] functions on [float] are not part of the
    header.  The host is one record carrying each of them, so that a
    wrapper records which of the host's functions it calls. *)
Record cmath : Type := mk_cmath {
  std_fmax : Z -> Z -> Z;
  std_fmin : Z -> Z -> Z
}.

Section MathWrappers.

Variable host : cmath.

Definition make_unary_function (func : Z -> Z) (f : float16_t)
  : option float16_t :=
  match to_float f with
  | Some x => Some (of_float (func x))
  | None => None
  end.

Definition make_binary_function (func : Z -> Z -> Z) (f1 f2 : float16_t)
  : option float16_t :=
  match to_float f1, to_float f2 with
  | Some x1, Some x2 => Some (of_float (func x1 x2))
  | _, _ => None
  end.

Definition make_trinary_function (func : Z -> Z -> Z -> Z)
  (f1 f2 f3 : float16_t) : option float16_t :=
  match to_float f1, to_float f2, to_float f3 with
  | Some x1, Some x2, Some x3 => Some (of_float (func x1 x2 x3))
  | _, _, _ => None
  end.

Definition fmax : float16_t -> float16_t -> option float16_t :=
  make_binary_function (fun f1 f2 => std_fmax host f1 f2).

Definition fmin : float16_t -> float16_t -> option float16_t :=
  make_binary_function (fun f1 f2 => std_fmax host f1 f2).

(** What a wrapper over the host's minimum would be; the header has
    no such definition. *)
Definition fmin_by_host_min : float16_t -> float16_t -> option float16_t :=
  make_binary_function (fun f1 f2 => std_fmin host f1 f2).

End MathWrappers.

End Float16.
Import Float16.

(** ** Stream extraction *)

Module Stream.

(** [std::ios_base::iostate]. *)
Record iostate : Set := mk_iostate { eofbit : bool; failbit : bool; badbit : bool }.

(** An input stream: the characters still to be read and the state
    flags. *)
Record istream : Set := mk_istream { rdbuf : list nat; rdstate : iostate }.

(** [is.fail()]. *)
Definition fail (is_ : istream) : bool :=
  failbit (rdstate is_) || badbit (rdstate is_).

(** The stream used as a condition: [!fail()]. *)
Definition to_bool (is_ : istream) : bool := negb (fail is_).

(** [is.setstate(std::ios_base::failbit)]. *)
Definition setstate_failbit (is_ : istream) : istream :=
  mk_istream (rdbuf is_)
    (mk_iostate (eofbit (rdstate is_)) true (badbit (rdstate is_))).

Section Extraction.

(** The host's [is >> __v] for a [float]: the stream afterwards and
    the pattern left in [__v]. *)
Variable host_extract_float : istream -> istream * Z.

(** [operator >> ( is, float16_t& f )]: the stream afterwards and
    the contents of [f] afterwards. *)
Definition extract (is_ : istream) (f : float16_t) : istream * float16_t :=
  let __fail := true in
  let '(is_, __v) := host_extract_float is_ in
  let '(__fail, f) :=
    if to_bool is_ then (false, of_float __v) else (__fail, f) in
  let is_ := if __fail then setstate_failbit is_ else is_ in
  (is_, f).

End Extraction.

End Stream.

Import Stream.

(** ** IEEE-754 reading of the two encodings *)

Module IEEE.

(** What a pattern denotes: a signed magnitude (so that the two zeros
    stay apart), an infinity, or a NaN. *)
Inductive ieee_value : Set :=
| Finite (negative : bool) (magnitude : Q)
| Infinite (negative : bool)
| NaN.

Definition same_value (x y : ieee_value) : bool :=
  match x, y with
  | Finite s1 m1, Finite s2 m2 => Bool.eqb s1 s2 && Qeq_bool m1 m2
  | Infinite s1, Infinite s2 => Bool.eqb s1 s2
  | NaN, NaN => true
  | _, _ => false
  end.

(** binary16: 1 sign bit, 5 exponent bits (bias 15), 10 fraction bits. *)
Definition binary16_value (h : Z) : ieee_value :=
  let s := negb (sign_ h =? 0) in
  let e := exp_ h in
  let m := frac_ h in
  if e =? 0x1f then (if m =? 0 then Infinite s else NaN)
  else if e =? 0 then Finite s (inject_Z m * 2 ^ (-24))%Q
  else Finite s (inject_Z (2 ^ 10 + m) * 2 ^ (e - 25))%Q.

(** binary32: 1 sign bit, 8 exponent bits (bias 127), 23 fraction bits. *)
Definition binary32_value (b : Z) : ieee_value :=
  let s := negb (Z.land (Z.shiftr b 31) 1 =? 0) in
  let e := Z.land (Z.shiftr b 23) 0xff in
  let m := Z.land b 0x7fffff in
  if e =? 0xff then (if m =? 0 then Infinite s else NaN)
  else if e =? 0 then Finite s (inject_Z m * 2 ^ (-149))%Q
  else Finite s (inject_Z (2 ^ 23 + m) * 2 ^ (e - 150))%Q.

(** The rational a finite pattern stands for. *)
Definition real_of (v : ieee_value) : option Q :=
  match v with
  | Finite s m => Some (if s then - m else m)%Q
  | _ => None
  end.

(** [b] is a finite binary32 pattern at least as close to the rational
    [x] as every other finite binary32 pattern: what the host makes of
    a decimal literal. *)
Definition nearest_binary32 (x : Q) (b : Z) : Prop :=
  is_uint32 b /\
  exists v, real_of (binary32_value b) = Some v /\
    forall b' v', is_uint32 b' -> real_of (binary32_value b') = Some v' ->
      (Qabs (v - x) <= Qabs (v' - x))%Q.

(** The magnitude of a non-negative finite binary32 pattern in units of
    [2^-149]. *)
Definition binary32_ulps (b : Z) : Z :=
  let e := Z.land (Z.shiftr b 23) 0xff in
  let m := Z.land b 0x7fffff in
  if e =? 0 then m else (2 ^ 23 + m) * 2 ^ (e - 1).

(** Round to nearest, ties to even, when the low [k + 1] bits of [c]
    are dropped: go up when the dropped part is above one half of the
    last kept place, or is exactly one half and the kept part is odd. *)
Definition rne_increment (c k : Z) : bool :=
  let kept := c / 2 ^ (k + 1) in
  let dropped := c mod 2 ^ (k + 1) in
  (2 ^ k <? dropped) || ((dropped =? 2 ^ k) && Z.odd kept).

End IEEE.
Import IEEE.

(** ** Vocabulary for the statements *)

(** The value [half_exponent] holds in [float32_to_float16]. *)
Definition half_exponent_of (u32 : Z) : Z :=
  to_int32 (wrap32 (Z.shiftr (Z.land u32 0x7f800000) 23 - 127)) + 15.

(** A binary32 pattern that is neither an infinity nor a NaN. *)
Definition finite32 (u32 : Z) : bool :=
  negb (Z.land u32 0x7f800000 =? 0x7f800000).

(** The pattern the normal path of [float32_to_float16] has before
    rounding: [half_sign | uhalf_exponent | half_coef]. *)
Definition truncated_normal (u32 : Z) : Z :=
  Z.lor (Z.lor (Z.shiftr (Z.land u32 0x80000000) 16)
               (wrap32 (Z.shiftl (half_exponent_of u32) 10)))
        (Z.shiftr (Z.land u32 0x7fffff) 13).

(** The rounding test as the specification words it, with the mask
    [2 * round_bit - 1]. *)
Definition round_up_as_specified (c round_bit : Z) : bool :=
  truthy (Z.land c round_bit) && truthy (Z.land c (2 * round_bit - 1)).

(** [narrow (widen h)]. *)
Definition round_trip (h : Z) : option Z :=
  option_map float32_to_float16 (float16_to_float32 h).

(** [forall_bits n acc p] runs [p] on every [z] whose bits above the
    low [n] are [acc]. *)
Fixpoint forall_bits (n : nat) (acc : Z) (p : Z -> bool) : bool :=
  match n with
  | O => p acc
  | S k => forall_bits k (2 * acc) p && forall_bits k (2 * acc + 1) p
  end.

(** A stand-in for the host's extraction, for trying [extract] out: it
    reads the one-character text [1] as [1.0f] and fails on anything
    else, setting [eofbit] too when nothing is left to read. *)
Definition host_extract_one (is_ : istream) : istream * Z :=
  match rdbuf is_ with
  | [] =>
      (mk_istream [] (mk_iostate true true (badbit (rdstate is_))), 0)
  | c :: rest =>
      if Nat.eqb c 49 then (mk_istream rest (rdstate is_), 0x3f800000)
      else (setstate_failbit is_, 0)
  end.

(** ** Comparison operators *)

(** The host's comparison of two [float]s is not part of the header.
    It is taken as IEEE 754 defines it on what the two patterns stand
    for: a NaN is unordered with everything, the two zeros are equal,
    the infinities are the extremes. *)
Module HostFloat.

Definition signed (negative : bool) (magnitude : Q) : Q :=
  if negative then (- magnitude)%Q else magnitude.

(** [None] is unordered. *)
Definition ieee_compare (a b : ieee_value) : option comparison :=
  match a, b with
  | NaN, _ | _, NaN => None
  | Finite sa ma, Finite sb mb => Some (signed sa ma ?= signed sb mb)%Q
  | Infinite sa, Infinite sb =>
      Some (if sa then (if sb then Eq else Lt) else (if sb then Gt else Eq))
  | Infinite sa, Finite _ _ => Some (if sa then Lt else Gt)
  | Finite _ _, Infinite sb => Some (if sb then Gt else Lt)
  end.

Definition compare (x y : Z) : option comparison :=
  ieee_compare (binary32_value x) (binary32_value y).

Definition lt (x y : Z) : bool :=
  match compare x y with Some Lt => true | _ => false end.
Definition le (x y : Z) : bool :=
  match compare x y with Some Lt | Some Eq => true | _ => false end.
Definition eq (x y : Z) : bool :=
  match compare x y with Some Eq => true | _ => false end.
Definition gt (x y : Z) : bool :=
  match compare x y with Some Gt => true | _ => false end.
Definition ge (x y : Z) : bool :=
  match compare x y with Some Gt | Some Eq => true | _ => false end.
Definition ne (x y : Z) : bool := negb (eq x y).

(** [std::fmax] and [std::fmin] as C defines them: the larger and the
    smaller of the two; when exactly one operand is a NaN, the other
    one. *)
Definition fmax (x y : Z) : Z :=
  match compare x y with
  | Some Lt => y
  | Some _ => x
  | None => match binary32_value x with NaN => y | _ => x end
  end.

Definition fmin (x y : Z) : Z :=
  match compare x y with
  | Some Gt => y
  | Some _ => x
  | None => match binary32_value x with NaN => y | _ => x end
  end.

End HostFloat.

Module Compare.

(** Every comparison operator of the header has the shape
    [float(lhs) OP float(rhs)]. *)
Definition lift (op : Z -> Z -> bool) (lhs rhs : float16_t) : option bool :=
  match to_float lhs, to_float rhs with
  | Some x, Some y => Some (op x y)
  | _, _ => None
  end.

Definition lt := lift HostFloat.lt.
Definition le := lift HostFloat.le.
Definition eq := lift HostFloat.eq.
Definition gt := lift HostFloat.gt.
Definition ge := lift HostFloat.ge.
Definition ne := lift HostFloat.ne.

End Compare.

(** A host whose [std::fmax] and [std::fmin] are the IEEE 754 maximum
    and minimum. *)
Definition ieee_cmath : cmath := mk_cmath HostFloat.fmax HostFloat.fmin.

(** * Proofs *)

(** ** Exhaustive checks over bit patterns *)

Lemma forall_bits_sound (n : nat) :
  forall acc p, forall_bits n acc p = true ->
  forall z, acc * 2 ^ Z.of_nat n <= z < (acc + 1) * 2 ^ Z.of_nat n -> p z = true.
Proof.
  induction n as [|k IH]; intros acc p Hall z Hz.
  - change (2 ^ Z.of_nat 0) with 1 in Hz.
    assert (z = acc) by lia. subst z. exact Hall.
  - cbn [forall_bits] in Hall. apply andb_prop in Hall as [Hlo Hhi].
    rewrite Nat2Z.inj_succ, Z.pow_succ_r in Hz by lia.
    assert (Hpos : 0 < 2 ^ Z.of_nat k) by (apply Z.pow_pos_nonneg; lia).
    destruct (Z_lt_ge_dec z ((2 * acc + 1) * 2 ^ Z.of_nat k)) as [Hlt|Hge].
    + apply (IH _ _ Hlo). nia.
    + apply (IH _ _ Hhi). nia.
Qed.

Lemma forall_uint16 (p : Z -> bool) :
  forall_bits 16 0 p = true -> forall h, is_uint16 h -> p h = true.
Proof.
  intros Hall h Hh. apply (forall_bits_sound 16 0 p Hall).
  unfold is_uint16 in Hh. change (2 ^ Z.of_nat 16) with (2 ^ 16). lia.
Qed.

(** ** The widening loop always leaves through its condition *)

Lemma renormalize_enough_fuel (fuel : nat) :
  forall coef exponent,
    0 <= coef < 2 ^ 32 ->
    coef mod 2 ^ (32 - Z.of_nat fuel) = 0 ->
    (fuel <= 32)%nat ->
    exists r, renormalize fuel coef exponent = Some r.
Proof.
  induction fuel as [|n IH]; intros coef exponent Hrange Hdiv Hle.
  - cbn [renormalize]. change (32 - Z.of_nat 0) with 32 in Hdiv.
    rewrite Z.mod_small in Hdiv by lia. subst coef.
    cbn. eexists; reflexivity.
  - cbn [renormalize].
    destruct (truthy (Z.land coef 0x7f800000)); [|eexists; reflexivity].
    apply IH; [unfold wrap32; apply Z.mod_pos_bound; lia | | lia].
    unfold wrap32. rewrite Z.shiftl_mul_pow2 by lia.
    change (2 ^ 1) with 2.
    replace (32 - Z.of_nat n) with (Z.succ (32 - Z.of_nat (S n))) by lia.
    assert (Hk : 0 <= 32 - Z.of_nat (S n)) by lia.
    set (k := 32 - Z.of_nat (S n)) in *.
    rewrite Z.pow_succ_r by lia.
    apply Z.mod_divide; [lia|].
    apply Z.mod_divide in Hdiv; [|apply Z.pow_nonzero; lia].
    destruct Hdiv as [q Hq].
    pose proof (Z.pow_pos_nonneg 2 k ltac:(lia) Hk) as Hpk.
    assert (Hdvd32 : (2 * 2 ^ k | 2 ^ 32)).
    { exists (2 ^ (31 - k)).
      replace (2 * 2 ^ k) with (2 ^ (k + 1)) by (rewrite Z.pow_add_r by lia; lia).
      rewrite <- Z.pow_add_r by lia. f_equal. lia. }
    rewrite Z.mod_eq by (apply Z.pow_nonzero; lia).
    apply Z.divide_sub_r.
    + exists q. rewrite Hq. ring.
    + apply Z.divide_mul_l. exact Hdvd32.
Qed.

Lemma float16_to_float32_returns (h : Z) :
  exists f32, float16_to_float32 h = Some f32.
Proof.
  unfold float16_to_float32, float16_to_float32_fuel.
  destruct (_ =? 0x1f).
  - destruct (_ =? 0); eexists; reflexivity.
  - destruct (_ =? 0); [|eexists; reflexivity].
    destruct (_ =? 0); [eexists; reflexivity|].
    destruct (renormalize_enough_fuel 32
                (wrap32 (Z.shiftl (Z.land h 0x3ff) 13))
                (wrap32 (Z.shiftr (Z.land h 0x7c00) 10 + 1))) as [[c e] Hr].
    + unfold wrap32. apply Z.mod_pos_bound. lia.
    + change (32 - Z.of_nat 32) with 0. change (2 ^ 0) with 1. apply Z.mod_1_r.
    + lia.
    + rewrite Hr. eexists; reflexivity.
Qed.

(** ** Unary negation *)

Lemma land_0x7fff (b : Z) : Z.land b 0x7fff = b mod 2 ^ 15.
Proof. change 0x7fff with (Z.ones 15). apply Z.land_ones. lia. Qed.

Lemma uint16_high_bits (b i : Z) : is_uint16 b -> 16 <= i -> Z.testbit b i = false.
Proof.
  intros [Hlo Hhi] Hi.
  destruct (Z.eq_dec b 0) as [->|Hnz]; [apply Z.bits_0|].
  apply Z.bits_above_log2; [lia|].
  apply Z.lt_le_trans with 16; [|lia].
  apply Z.log2_lt_pow2; lia.
Qed.

(** The expression [(bits & 0x7fff) | (bits ^ 0x8000)] is [bits ^ 0x8000]
    whatever [bits] is; the cast to 16 bits then changes nothing. *)
Lemma neg_expression (b : Z) :
  Z.lor (Z.land b 0x7fff) (Z.lxor b 0x8000) = Z.lxor b 0x8000.
Proof.
  rewrite land_0x7fff. change 0x8000 with (2 ^ 15).
  apply Z.bits_inj'. intros i Hi.
  rewrite Z.lor_spec, Z.lxor_spec, Z.pow2_bits_eqb by lia.
  destruct (Z_lt_ge_dec i 15) as [Hlt|Hge].
  - rewrite Z.mod_pow2_bits_low by lia.
    replace (15 =? i) with false by (symmetry; apply Z.eqb_neq; lia).
    destruct (Z.testbit b i); reflexivity.
  - rewrite Z.mod_pow2_bits_high by lia. reflexivity.
Qed.

Lemma lxor_0x8000_uint16 (b : Z) : is_uint16 b -> wrap16 (Z.lxor b 0x8000) = Z.lxor b 0x8000.
Proof.
  intros Hb. unfold wrap16. change 0x8000 with (2 ^ 15).
  apply Z.bits_inj'. intros i Hi.
  destruct (Z_lt_ge_dec i 16) as [Hlt|Hge].
  - apply Z.mod_pow2_bits_low. lia.
  - rewrite Z.mod_pow2_bits_high by lia.
    rewrite Z.lxor_spec, Z.pow2_bits_eqb by lia.
    rewrite (uint16_high_bits b i Hb) by lia.
    replace (15 =? i) with false by (symmetry; apply Z.eqb_neq; lia).
    reflexivity.
Qed.

Lemma neg_bits (f : float16_t) :
  is_uint16 (data_ f) -> data_ (neg f) = Z.lxor (data_ f) 0x8000.
Proof.
  intros Hf. unfold neg, of_bits. cbn [data_].
  rewrite neg_expression. apply lxor_0x8000_uint16. exact Hf.
Qed.

Lemma lxor_0x8000_low (b : Z) : Z.land (Z.lxor b 0x8000) 0x7fff = Z.land b 0x7fff.
Proof.
  rewrite !land_0x7fff. change 0x8000 with (2 ^ 15).
  apply Z.bits_inj'. intros i Hi.
  destruct (Z_lt_ge_dec i 15) as [Hlt|Hge].
  - rewrite !Z.mod_pow2_bits_low by lia.
    rewrite Z.lxor_spec, Z.pow2_bits_eqb by lia.
    replace (15 =? i) with false by (symmetry; apply Z.eqb_neq; lia).
    apply xorb_false_r.
  - rewrite !Z.mod_pow2_bits_high by lia. reflexivity.
Qed.

(** A mask inside the low 15 bits sees the same thing before and after
    the sign flip. *)
Lemma lxor_0x8000_mask (b m : Z) :
  Z.land m 0x7fff = m -> Z.land (Z.lxor b 0x8000) m = Z.land b m.
Proof.
  intros Hm. rewrite <- Hm.
  rewrite !(Z.land_comm _ (Z.land m 0x7fff)), <- !Z.land_assoc.
  rewrite !(Z.land_comm 0x7fff), lxor_0x8000_low. reflexivity.
Qed.

(** C9: unary negation returns the operand with bit 15 flipped and
    the other fifteen bits as they were.  So it swaps the patterns of
    +0 and -0, keeps the exponent and fraction fields of every pattern
    (a NaN stays a NaN, both for the header's [is_nan] and in the
    binary16 reading), and applying it twice gives the operand back. *)
Theorem neg_flips_only_sign_bit (f : float16_t) :
  is_uint16 (data_ f) ->
  data_ (neg f) = Z.lxor (data_ f) 0x8000
  /\ Z.land (data_ (neg f)) 0x7fff = Z.land (data_ f) 0x7fff
  /\ sign_ (data_ (neg f)) = 1 - sign_ (data_ f)
  /\ exp_ (data_ (neg f)) = exp_ (data_ f)
  /\ frac_ (data_ (neg f)) = frac_ (data_ f)
  /\ is_nan (neg f) = is_nan f
  /\ same_value (binary16_value (data_ (neg f))) NaN
     = same_value (binary16_value (data_ f)) NaN
  /\ neg fp16_zero = fp16_zero_negative
  /\ neg fp16_zero_negative = fp16_zero
  /\ neg (neg f) = f.
Proof.
  intros Hf. pose proof (neg_bits f Hf) as Hneg.
  assert (Hexp : exp_ (data_ (neg f)) = exp_ (data_ f)).
  { unfold exp_. rewrite Hneg.
    change 0x1f with (Z.ones 5). rewrite !Z.land_ones by lia.
    rewrite <- !(Z.land_ones _ 5) by lia. change (Z.ones 5) with (Z.shiftr 0x7c00 10).
    rewrite <- !Z.shiftr_land. f_equal. apply lxor_0x8000_mask. reflexivity. }
  assert (Hfrac : frac_ (data_ (neg f)) = frac_ (data_ f)).
  { unfold frac_. rewrite Hneg. apply lxor_0x8000_mask. reflexivity. }
  repeat split.
  - exact Hneg.
  - rewrite Hneg. apply lxor_0x8000_low.
  - unfold sign_. rewrite Hneg. change 0x8000 with (Z.shiftl 1 15) at 1.
    rewrite Z.shiftr_lxor, Z.shiftr_shiftl_l by lia. change (Z.shiftl 1 (15 - 15)) with 1.
    change 1 with (Z.ones 1) at 2 4. rewrite !Z.land_ones by lia.
    change (2 ^ 1) with 2. rewrite <- !Z.bit0_mod, Z.lxor_spec. change (Z.testbit 1 0) with true.
    destruct (Z.testbit _ 0); reflexivity.
  - exact Hexp.
  - exact Hfrac.
  - unfold is_nan, to_uint16. rewrite Hneg, lxor_0x8000_low. reflexivity.
  - unfold binary16_value. rewrite Hexp, Hfrac.
    destruct (exp_ (data_ f) =? 0x1f); [|destruct (exp_ (data_ f) =? 0); reflexivity].
    destruct (frac_ (data_ f) =? 0); reflexivity.
  - destruct f as [b]. unfold neg, of_bits. cbn [data_] in *. f_equal.
    rewrite !neg_expression, (lxor_0x8000_uint16 b Hf), Z.lxor_assoc.
    change (Z.lxor 0x8000 0x8000) with 0. rewrite Z.lxor_0_r.
    apply Z.mod_small. exact Hf.
Qed.

Lemma neg_flips_only_sign_bit_witness :
  is_uint16 (data_ fp16_nan) /\ data_ (neg fp16_nan) = 0xfe00.
Proof.
  assert (H : is_uint16 (data_ fp16_nan)) by (unfold is_uint16; simpl; lia).
  split; [exact H|].
  exact (proj1 (neg_flips_only_sign_bit fp16_nan H)).
Defined.

(** ** Classification predicates *)

(** C7: the header's [is_nan] and [is_inf] test the low fifteen bits
    against [0x7f80], not against the binary16 infinity pattern
    [0x7c00]; so [is_nan] is false on the header's own [fp16_nan]
    ([0x7e00]) and [is_inf] is false on its own [fp16_infinity]
    ([0x7c00]), although the binary16 reading of these patterns is a
    NaN and an infinity. *)
Theorem is_nan_is_inf_reject_own_constants :
  is_nan fp16_nan = false
  /\ is_inf fp16_infinity = false
  /\ data_ fp16_nan = 0x7e00
  /\ data_ fp16_infinity = 0x7c00
  /\ binary16_value (data_ fp16_nan) = NaN
  /\ binary16_value (data_ fp16_infinity) = Infinite false
  /\ (forall f, is_nan f = (0x7f80 <? Z.land (data_ f) 0x7fff))
  /\ (forall f, is_inf f = (Z.land (data_ f) 0x7fff =? 0x7f80)).
Proof.
  repeat split.
Qed.

(** [is_finite] is the negation of [is_nan || is_inf]: the low fifteen
    bits have bits 7 to 14 all set exactly when they are at least
    [0x7f80]. *)
Lemma is_finite_not_nan_or_inf (f : float16_t) :
  is_uint16 (data_ f) -> is_finite f = negb (is_nan f || is_inf f).
Proof.
  intros Hf. destruct f as [b]. cbn [data_] in Hf.
  apply (forall_uint16
           (fun b => Bool.eqb (is_finite (mk_float16_t b))
                       (negb (is_nan (mk_float16_t b) || is_inf (mk_float16_t b)))))
    in Hf; [apply eqb_prop; exact Hf | vm_compute; reflexivity].
Qed.

(** ** Math wrappers *)

(** C8: [fmin] delegates to the same host function as [fmax], the
    host's [std::fmax]: for every host and every pair of operands the
    two wrappers return the same thing, the narrowing of the host's
    [std::fmax] applied to the two widened operands, whatever the
    host's [std::fmin] is.  On a host with the IEEE 754 maximum and
    minimum, [fmin] of 1 and 3.140625 is therefore 3.140625, where a
    wrapper over the host's minimum gives 1. *)
Theorem fmin_is_fmax (host : cmath) (f1 f2 : float16_t) :
  fmin host f1 f2 = fmax host f1 f2
  /\ (exists x1 x2,
        to_float f1 = Some x1 /\ to_float f2 = Some x2
        /\ fmin host f1 f2 = Some (of_float (std_fmax host x1 x2))
        /\ fmax host f1 f2 = Some (of_float (std_fmax host x1 x2)))
  /\ (forall other_fmin,
        fmin (mk_cmath (std_fmax host) other_fmin) f1 f2 = fmin host f1 f2)
  /\ fmin ieee_cmath fp16_one fp16_pi = Some fp16_pi
  /\ fmax ieee_cmath fp16_one fp16_pi = Some fp16_pi
  /\ fmin_by_host_min ieee_cmath fp16_one fp16_pi = Some fp16_one.
Proof.
  split; [reflexivity|]. split.
  - destruct (float16_to_float32_returns (data_ f1)) as [x1 H1].
    destruct (float16_to_float32_returns (data_ f2)) as [x2 H2].
    exists x1, x2. unfold fmin, fmax, make_binary_function, to_float.
    rewrite H1, H2. repeat split.
  - split; [intros other_fmin; reflexivity|].
    repeat split; vm_compute; reflexivity.
Qed.

(** ** Stream extraction *)

(** C10: when the host's extraction of a [float] leaves the stream
    failed, [operator >>] leaves the target as it was and the stream
    it returns has [fail()] true; when the host's extraction succeeds,
    the target becomes the narrowing of the parsed [float] and the
    stream is the one the host left.  So the target changes only on a
    successful parse. *)
Theorem extract_assigns_only_on_success
  (host_extract_float : istream -> istream * Z) (is_ : istream) (f : float16_t) :
  let after_host := fst (host_extract_float is_) in
  let parsed := snd (host_extract_float is_) in
  let is' := fst (extract host_extract_float is_ f) in
  let f' := snd (extract host_extract_float is_ f) in
  (fail after_host = true -> f' = f /\ fail is' = true /\ failbit (rdstate is') = true)
  /\ (fail after_host = false -> f' = of_float parsed /\ is' = after_host)
  /\ (f' <> f -> fail after_host = false /\ f' = of_float parsed).
Proof.
  cbv zeta. unfold extract, to_bool.
  destruct (host_extract_float is_) as [is1 v]. cbn [fst snd].
  destruct (fail is1) eqn:Hfail; cbn [negb fst snd].
  - split; [intros _|split; [discriminate|]].
    + repeat split.
    + intros Hne. contradiction Hne. reflexivity.
  - split; [discriminate|]. split; intros _; split; reflexivity.
Qed.

Lemma extract_assigns_only_on_success_witness :
  (let s := mk_istream [120%nat] (mk_iostate false false false) in
   fail (fst (host_extract_one s)) = true
   /\ snd (extract host_extract_one s fp16_pi) = fp16_pi
   /\ fail (fst (extract host_extract_one s fp16_pi)) = true)
  /\ (let s := mk_istream [49%nat] (mk_iostate false false false) in
      fail (fst (host_extract_one s)) = false
      /\ snd (extract host_extract_one s fp16_pi) = fp16_one).
Proof.
  split; cbv zeta.
  - assert (H : fail (fst (host_extract_one
                  (mk_istream [120%nat] (mk_iostate false false false)))) = true)
      by reflexivity.
    split; [exact H|].
    destruct (proj1 (extract_assigns_only_on_success host_extract_one
                       (mk_istream [120%nat] (mk_iostate false false false)) fp16_pi) H)
      as (Hf & Hs & _).
    split; assumption.
  - assert (H : fail (fst (host_extract_one
                  (mk_istream [49%nat] (mk_iostate false false false)))) = false)
      by reflexivity.
    split; [exact H|].
    exact (proj1 (proj1 (proj2 (extract_assigns_only_on_success host_extract_one
                       (mk_istream [49%nat] (mk_iostate false false false)) fp16_pi)) H)).
Defined.

(** C4: the pattern [0x0080] has exponent field 0 and a nonzero
    fraction, so it is subnormal; [is_normal] masks with [0x7f80]
    instead of the exponent field [0x7c00], sees bit 7 and answers
    true as well.  Two of the five categories hold for it. *)
Theorem is_normal_and_subnormal_0x0080 :
  is_uint16 0x0080
  /\ is_normal (of_bits 0x0080) = true
  /\ is_subnormal (of_bits 0x0080) = true
  /\ exp_ 0x0080 = 0
  /\ frac_ 0x0080 = 0x80
  /\ is_nan (of_bits 0x0080) = false
  /\ is_inf (of_bits 0x0080) = false
  /\ is_zero (of_bits 0x0080) = false.
Proof.
  unfold is_uint16. repeat split; simpl; lia.
Qed.

(** Every pattern is in at least one of the five categories. *)
Lemma categories_exhaustive (f : float16_t) :
  is_uint16 (data_ f) ->
  is_nan f || is_inf f || is_normal f || is_zero f || is_subnormal f = true.
Proof.
  destruct f as [b]. cbn [data_].
  apply (forall_uint16
           (fun b => let f := mk_float16_t b in
                     is_nan f || is_inf f || is_normal f || is_zero f || is_subnormal f)).
  vm_compute. reflexivity.
Qed.

(** ** Overflow on narrowing *)

(** When [half_exponent] is exactly [0x1f] the result is the signed
    infinity. *)
Lemma float32_to_float16_half_exponent_0x1f (u32 : Z) :
  finite32 u32 = true -> half_exponent_of u32 = 0x1f ->
  float32_to_float16 u32
  = to_float16 (Z.lor (Z.shiftr (Z.land u32 0x80000000) 16) 0x7c00).
Proof.
  unfold finite32, half_exponent_of, float32_to_float16. cbv zeta.
  intros Hfin Hhe. apply negb_true_iff in Hfin. rewrite Hfin, Hhe. reflexivity.
Qed.

(** C1: [131072.0f] has the pattern [0x48000000]: finite, exponent
    field 144, so [half_exponent] is [0x20 >= 0x1f].  The header tests
    [half_exponent == 0x1f] only, so this input runs through the normal
    path, where [half_exponent << 10] is [0x8000]: the result is the
    pattern of negative zero, not [0x7c00]. *)
Theorem float32_to_float16_131072 :
  binary32_value 0x48000000 = Finite false (inject_Z (2 ^ 23 + 0) * 2 ^ (144 - 150))%Q
  /\ finite32 0x48000000 = true
  /\ half_exponent_of 0x48000000 = 0x20
  /\ float32_to_float16 0x48000000 = 0x8000
  /\ float32_to_float16 0x48000000 <> Z.lor 0 0x7c00.
Proof.
  repeat split. vm_compute. discriminate.
Qed.

(** ** Widening *)

(** The loop condition [coef & 0x7f800000] is false on entry for every
    input: [coef] is ten bits shifted left by 13, below bit 23.  The
    loop body never runs. *)
Lemma renormalize_never_iterates (h exponent : Z) (fuel : nat) :
  is_uint16 h ->
  renormalize fuel (wrap32 (Z.shiftl (Z.land h 0x3ff) 13)) exponent
  = Some (wrap32 (Z.shiftl (Z.land h 0x3ff) 13), exponent).
Proof.
  intros Hh.
  assert (Hc : truthy (Z.land (wrap32 (Z.shiftl (Z.land h 0x3ff) 13)) 0x7f800000) = false).
  { apply negb_true_iff.
    apply (forall_uint16
             (fun h => negb (truthy (Z.land (wrap32 (Z.shiftl (Z.land h 0x3ff) 13))
                                            0x7f800000))));
      [vm_compute; reflexivity | exact Hh]. }
  destruct fuel; cbn [renormalize]; rewrite Hc; reflexivity.
Qed.

(** What widening does to a subnormal pattern: exponent field
    [1 + 0x70], fraction moved up by 13 bits, implicit bit never
    shifted out. *)
Lemma float16_to_float32_subnormal (h : Z) :
  is_uint16 h -> is_subnormal (of_bits h) = true ->
  float16_to_float32 h
  = Some (Z.lor (Z.lor (Z.shiftl (Z.land h 0x8000) 16) 0x38800000)
                (Z.shiftl (Z.land h 0x3ff) 13)).
Proof.
  intros Hh Hsub.
  apply (forall_uint16
           (fun h => implb (is_subnormal (of_bits h))
              match float16_to_float32 h with
              | Some r => r =? Z.lor (Z.lor (Z.shiftl (Z.land h 0x8000) 16) 0x38800000)
                                     (Z.shiftl (Z.land h 0x3ff) 13)
              | None => false
              end)) in Hh; [|vm_compute; reflexivity].
  rewrite Hsub in Hh. cbn [implb] in Hh.
  destruct (float16_to_float32 h) as [r|]; [|discriminate].
  apply Z.eqb_eq in Hh. congruence.
Qed.

(** Widening is exact on every pattern that is not subnormal. *)
Lemma float16_to_float32_exact_unless_subnormal (h : Z) :
  is_uint16 h -> is_subnormal (of_bits h) = false ->
  exists f32, float16_to_float32 h = Some f32
              /\ same_value (binary32_value f32) (binary16_value h) = true.
Proof.
  intros Hh Hsub.
  apply (forall_uint16
           (fun h => is_subnormal (of_bits h)
              || match float16_to_float32 h with
                 | Some r => same_value (binary32_value r) (binary16_value h)
                 | None => false
                 end)) in Hh; [|vm_compute; reflexivity].
  rewrite Hsub in Hh. cbn [orb] in Hh.
  destruct (float16_to_float32 h) as [r|]; [|discriminate].
  exists r. split; [reflexivity | exact Hh].
Qed.

(** C2: the smallest subnormal [0x0001] stands for [2^-24].  Widening
    it gives the pattern [0x38802000], which stands for
    [(2^23 + 2^13) * 2^-37 = 2^-14 + 2^-24]: the loop that should
    shift the fraction up to the implicit bit never runs, so the
    fraction is kept and an implicit bit is added on top of it. *)
Theorem float16_to_float32_0x0001 :
  is_subnormal (of_bits 0x0001) = true
  /\ float16_to_float32 0x0001 = Some 0x38802000
  /\ binary16_value 0x0001 = Finite false (inject_Z 1 * 2 ^ (-24))%Q
  /\ binary32_value 0x38802000
     = Finite false (inject_Z (2 ^ 23 + 0x2000) * 2 ^ (113 - 150))%Q
  /\ same_value (binary32_value 0x38802000) (binary16_value 0x0001) = false
  /\ same_value (binary32_value 0x33800000) (binary16_value 0x0001) = true
  /\ renormalize 32 (wrap32 (Z.shiftl (Z.land 0x0001 0x3ff) 13)) 1
     = Some (0x2000, 1).
Proof.
  repeat split.
Qed.

(** ** Round trip *)

(** Narrowing after widening gives the pattern back for the zeros and
    for every normal pattern. *)
Lemma round_trip_unless_subnormal (h : Z) :
  is_uint16 h -> negb (exp_ h =? 0x1f) = true -> is_subnormal (of_bits h) = false ->
  round_trip h = Some h.
Proof.
  intros Hh Hfin Hsub.
  apply (forall_uint16
           (fun h => implb (negb (exp_ h =? 0x1f))
              (is_subnormal (of_bits h)
               || match round_trip h with Some r => r =? h | None => false end)))
    in Hh; [|vm_compute; reflexivity].
  rewrite Hfin, Hsub in Hh. cbn [implb orb] in Hh.
  destruct (round_trip h) as [r|]; [|discriminate].
  apply Z.eqb_eq in Hh. congruence.
Qed.

(** On a subnormal pattern the round trip sets exponent bit 10. *)
Lemma round_trip_subnormal (h : Z) :
  is_uint16 h -> is_subnormal (of_bits h) = true ->
  round_trip h = Some (Z.lor h 0x400) /\ Z.lor h 0x400 <> h.
Proof.
  intros Hh Hsub.
  apply (forall_uint16
           (fun h => implb (is_subnormal (of_bits h))
              (match round_trip h with Some r => r =? Z.lor h 0x400 | None => false end
               && negb (Z.lor h 0x400 =? h))))
    in Hh; [|vm_compute; reflexivity].
  rewrite Hsub in Hh. cbn [implb] in Hh.
  apply andb_prop in Hh as [Hr Hne].
  destruct (round_trip h) as [r|]; [|discriminate].
  apply Z.eqb_eq in Hr. apply negb_true_iff, Z.eqb_neq in Hne.
  split; congruence.
Qed.

(** C3: [0x0001] is a finite pattern (exponent field 0), yet widening
    it and narrowing the result gives [0x0401]: widening turns the
    subnormal into a binary32 normal with exponent field [0x71], which
    narrows to a half with exponent field 1. *)
Theorem round_trip_0x0001 :
  is_uint16 0x0001
  /\ exp_ 0x0001 = 0
  /\ float16_to_float32 0x0001 = Some 0x38802000
  /\ float32_to_float16 0x38802000 = 0x0401
  /\ round_trip 0x0001 = Some 0x0401.
Proof.
  unfold is_uint16. repeat split; simpl; lia.
Qed.

(** ** Rounding on narrowing *)

Lemma wrap16_wrap32 (z : Z) : wrap16 (wrap32 z) = wrap16 z.
Proof.
  unfold wrap16, wrap32. apply Z.mod_mod_divide.
  exists (2 ^ 16). reflexivity.
Qed.

Lemma land_pow2 (c k : Z) :
  0 <= k -> Z.land c (2 ^ k) = if Z.testbit c k then 2 ^ k else 0.
Proof.
  intros Hk. apply Z.bits_inj'. intros i Hi.
  rewrite Z.land_spec, Z.pow2_bits_eqb by lia.
  destruct (Z.eqb_spec k i) as [->|Hne].
  - destruct (Z.testbit c i) eqn:Hc; cbn.
    + rewrite Z.pow2_bits_true by lia. reflexivity.
    + rewrite Z.bits_0. reflexivity.
  - rewrite andb_false_r.
    destruct (Z.testbit c k); [|rewrite Z.bits_0; reflexivity].
    rewrite Z.pow2_bits_false by lia. reflexivity.
Qed.

Lemma truthy_land_pow2 (c k : Z) :
  0 <= k -> truthy (Z.land c (2 ^ k)) = Z.odd (c / 2 ^ k).
Proof.
  intros Hk. unfold truthy. rewrite land_pow2 by lia.
  rewrite Z.testbit_odd, Z.shiftr_div_pow2 by lia.
  pose proof (Z.pow_pos_nonneg 2 k ltac:(lia) Hk).
  destruct (Z.odd (c / 2 ^ k)); [|reflexivity].
  apply negb_true_iff, Z.eqb_neq. lia.
Qed.

(** The mask [3 * round_bit - 1] is the bit above the round bit
    together with all the bits below it; the round bit itself is left
    out. *)
Lemma rounding_mask (k : Z) :
  0 <= k -> 3 * 2 ^ k - 1 = Z.lor (2 ^ (k + 1)) (Z.ones k).
Proof.
  intros Hk.
  assert (Hdisj : Z.land (2 ^ (k + 1)) (Z.ones k) = 0).
  { rewrite Z.land_ones by lia.
    rewrite Z.pow_add_r by lia. change (2 ^ 1) with 2.
    rewrite Z.mul_comm. apply Z.mod_mul. apply Z.pow_nonzero; lia. }
  rewrite <- Z.lxor_lor by exact Hdisj.
  rewrite <- Z.add_nocarry_lxor by exact Hdisj.
  rewrite Z.ones_equiv, Z.pow_add_r by lia. change (2 ^ 1) with 2. lia.
Qed.

Lemma truthy_land_rounding_mask (c k : Z) :
  0 <= k ->
  truthy (Z.land c (3 * 2 ^ k - 1))
  = Z.odd (c / 2 ^ (k + 1)) || negb (c mod 2 ^ k =? 0).
Proof.
  intros Hk. rewrite rounding_mask, Z.land_lor_distr_r by lia.
  rewrite <- truthy_land_pow2 by lia. rewrite Z.land_ones by lia.
  unfold truthy.
  destruct (Z.eqb_spec (Z.land c (2 ^ (k + 1))) 0) as [H1|H1];
    destruct (Z.eqb_spec (c mod 2 ^ k) 0) as [H2|H2]; cbn;
    try (apply negb_true_iff, Z.eqb_neq; rewrite Z.lor_eq_0_iff; tauto).
  apply negb_false_iff, Z.eqb_eq. rewrite Z.lor_eq_0_iff. tauto.
Qed.

(** The header's rounding test is round-to-nearest, ties-to-even. *)
Lemma round_up_rne (c k : Z) :
  0 <= k <= 29 -> round_up c (2 ^ k) = rne_increment c k.
Proof.
  intros Hk. unfold round_up, rne_increment. cbv zeta.
  pose proof (Z.pow_pos_nonneg 2 k ltac:(lia) ltac:(lia)) as Hpos.
  assert (Hwrap : wrap32 (3 * 2 ^ k - 1) = 3 * 2 ^ k - 1).
  { unfold wrap32. apply Z.mod_small.
    assert (2 ^ k <= 2 ^ 29) by (apply Z.pow_le_mono_r; lia).
    change (2 ^ 29) with 536870912 in *. change (2 ^ 32) with 4294967296. lia. }
  rewrite Hwrap, truthy_land_pow2, truthy_land_rounding_mask by lia.
  assert (Hdrop : c mod 2 ^ (k + 1)
                  = c mod 2 ^ k + 2 ^ k * (if Z.odd (c / 2 ^ k) then 1 else 0)).
  { rewrite Z.pow_add_r by lia. change (2 ^ 1) with 2.
    rewrite Z.rem_mul_r by lia. rewrite Zmod_odd. reflexivity. }
  rewrite Hdrop.
  pose proof (Z.mod_pos_bound c (2 ^ k) Hpos) as Hr.
  destruct (Z.odd (c / 2 ^ k)); destruct (Z.odd (c / 2 ^ (k + 1)));
    destruct (Z.eqb_spec (c mod 2 ^ k) 0) as [H0|H0]; cbn;
    repeat match goal with
           | |- context [?a <? ?b] => destruct (Z.ltb_spec a b)
           | |- context [?a =? ?b] => destruct (Z.eqb_spec a b)
           end; cbn; try reflexivity; lia.
Qed.

(** What [rne_increment] means for the rounded value: it is within half
    a unit of the last kept place of [c], and even when exactly half a
    unit away. *)
Lemma rne_increment_nearest (c k : Z) :
  0 <= k ->
  let y := c / 2 ^ (k + 1) + (if rne_increment c k then 1 else 0) in
  Z.abs (y * 2 ^ (k + 1) - c) <= 2 ^ k
  /\ (Z.abs (y * 2 ^ (k + 1) - c) = 2 ^ k -> Z.even y = true).
Proof.
  intros Hk. cbv zeta. unfold rne_increment.
  pose proof (Z.pow_pos_nonneg 2 k ltac:(lia) Hk) as Hpos.
  assert (Hp1 : 2 ^ (k + 1) = 2 * 2 ^ k)
    by (rewrite Z.pow_add_r by lia; change (2 ^ 1) with 2; lia).
  rewrite Hp1.
  pose proof (Z.div_mod c (2 * 2 ^ k) ltac:(lia)) as Hdm.
  pose proof (Z.mod_pos_bound c (2 * 2 ^ k) ltac:(lia)) as Hr.
  set (q := c / (2 * 2 ^ k)) in *. set (r := c mod (2 * 2 ^ k)) in *.
  destruct (Z.ltb_spec (2 ^ k) r) as [Hlt|Hge]; cbn [orb].
  - split; [lia|]. intros Habs. lia.
  - destruct (Z.eqb_spec r (2 ^ k)) as [Heq|Hne]; cbn [andb].
    + destruct (Z.odd q) eqn:Hodd.
      * split; [lia|]. intros _. rewrite Z.even_add, <- Z.negb_odd, Hodd. reflexivity.
      * split; [lia|]. intros _. rewrite Z.add_0_r, <- Z.negb_odd, Hodd. reflexivity.
    + split; [lia|]. intros Habs. lia.
Qed.

Lemma significand_range (u32 : Z) :
  0 <= Z.lor (Z.land u32 0x7fffff) 0x800000 < 2 ^ 24.
Proof.
  assert (Hcoef : 0 <= Z.land u32 0x7fffff < 2 ^ 23).
  { change 0x7fffff with (Z.ones 23). rewrite Z.land_ones by lia.
    apply Z.mod_pos_bound. lia. }
  assert (Hnn : 0 <= Z.lor (Z.land u32 0x7fffff) 0x800000)
    by (apply Z.lor_nonneg; lia).
  split; [exact Hnn|].
  assert (Hlog : Z.log2 (Z.land u32 0x7fffff) < 24).
  { destruct (Z.eq_dec (Z.land u32 0x7fffff) 0) as [->|Hnz]; [cbn; lia|].
    apply Z.lt_trans with 23; [apply Z.log2_lt_pow2; lia | lia]. }
  assert (Hnz : Z.lor (Z.land u32 0x7fffff) 0x800000 <> 0).
  { rewrite Z.lor_eq_0_iff. intros [_ H]. discriminate H. }
  apply Z.log2_lt_pow2; [lia|].
  rewrite Z.log2_lor by lia. change (Z.log2 0x800000) with 23. lia.
Qed.

(** The normal path: the truncated pattern, plus one when the rounding
    test fires. *)
Lemma float32_to_float16_normal_path (u32 : Z) :
  finite32 u32 = true -> 0 < half_exponent_of u32 -> half_exponent_of u32 <> 0x1f ->
  float32_to_float16 u32
  = to_float16 (truncated_normal u32
                + Z.b2z (round_up (Z.land u32 0x7fffff) 0x1000)).
Proof.
  intros Hfin Hpos Hne. unfold finite32 in Hfin. apply negb_true_iff in Hfin.
  unfold float32_to_float16, truncated_normal. cbv zeta.
  change (to_int32 (wrap32 (Z.shiftr (Z.land u32 0x7f800000) 23 - 127)) + 15)
    with (half_exponent_of u32).
  rewrite Hfin.
  destruct (Z.eqb_spec (half_exponent_of u32) 0x1f) as [|_]; [contradiction|].
  destruct (Z.leb_spec (half_exponent_of u32) 0) as [|_]; [lia|].
  destruct (round_up (Z.land u32 0x7fffff) 0x1000); cbn [Z.b2z].
  - unfold to_float16. apply wrap16_wrap32.
  - rewrite Z.add_0_r. reflexivity.
Qed.

(** The subnormal path: the shifted significand, plus one when the
    rounding test fires, under the sign. *)
Lemma float32_to_float16_subnormal_path (u32 : Z) :
  finite32 u32 = true -> -10 <= half_exponent_of u32 <= 0 ->
  let c := Z.lor (Z.land u32 0x7fffff) 0x800000 in
  let k := 13 - half_exponent_of u32 in
  float32_to_float16 u32
  = to_float16 (Z.lor (Z.shiftr (Z.land u32 0x80000000) 16)
                      (Z.shiftr c (k + 1) + Z.b2z (round_up c (2 ^ k)))).
Proof.
  intros Hfin Hhe. cbv zeta. unfold finite32 in Hfin. apply negb_true_iff in Hfin.
  unfold float32_to_float16. cbv zeta.
  change (to_int32 (wrap32 (Z.shiftr (Z.land u32 0x7f800000) 23 - 127)) + 15)
    with (half_exponent_of u32).
  rewrite Hfin.
  destruct (Z.eqb_spec (half_exponent_of u32) 0x1f) as [|_]; [lia|].
  destruct (Z.leb_spec (half_exponent_of u32) 0) as [_|]; [|lia].
  destruct (Z.ltb_spec (half_exponent_of u32) (-10)) as [|_]; [lia|].
  set (he := half_exponent_of u32) in *.
  replace (14 - he) with (13 - he + 1) by lia.
  assert (Hbit : wrap32 (Z.shiftl 1 (13 - he)) = 2 ^ (13 - he)).
  { rewrite Z.shiftl_1_l. unfold wrap32. apply Z.mod_small.
    split; [apply Z.pow_nonneg; lia | apply Z.pow_lt_mono_r; lia]. }
  rewrite Hbit.
  pose proof (significand_range u32) as Hc.
  set (c := Z.lor (Z.land u32 0x7fffff) 0x800000) in *.
  destruct (round_up c (2 ^ (13 - he))); cbn [Z.b2z].
  - f_equal. f_equal. unfold wrap32. apply Z.mod_small.
    rewrite Z.shiftr_div_pow2 by lia.
    assert (Hq : 0 <= c / 2 ^ (13 - he + 1) <= c).
    { assert (Hp : 0 < 2 ^ (13 - he + 1)) by (apply Z.pow_pos_nonneg; lia).
      split; [apply Z.div_pos; lia|].
      apply Z.div_le_upper_bound; [lia|]. nia. }
    change (2 ^ 24) with 16777216 in Hc. change (2 ^ 32) with 4294967296. lia.
  - rewrite Z.add_0_r. reflexivity.
Qed.

(** The test with the mask the specification words, at the tie
    [2.0009765625f] (pattern [0x40001000], fraction [0x1000]): the
    worded test is true, the header's test is false, and the result is
    the truncated pattern [0x4000], not incremented. *)
Lemma round_up_as_specified_fires_on_even_tie :
  finite32 0x40001000 = true
  /\ half_exponent_of 0x40001000 = 16
  /\ Z.land 0x40001000 0x7fffff = 0x1000
  /\ round_up_as_specified 0x1000 0x1000 = true
  /\ round_up 0x1000 0x1000 = false
  /\ truncated_normal 0x40001000 = 0x4000
  /\ float32_to_float16 0x40001000 = 0x4000
  /\ float32_to_float16 0x40001000
     <> to_float16 (truncated_normal 0x40001000
                    + Z.b2z (round_up_as_specified 0x1000 0x1000)).
Proof.
  repeat split. vm_compute. discriminate.
Qed.

(** C5 (as amended): for a finite input that reaches one of the two
    rounding paths, let the significand be the 24-bit value with the
    implicit bit and [round_bit = 1 << (13 - half_exponent)] on the
    subnormal path, and the 23-bit fraction and [round_bit = 0x1000]
    on the normal path.  The truncated mantissa is incremented exactly
    when [(significand & round_bit) != 0] and
    [(significand & (3 * round_bit - 1)) != 0]; and this test is
    round-to-nearest with ties to even on the bits dropped. *)
Theorem float32_to_float16_rounding (u32 : Z) :
  finite32 u32 = true ->
  -10 <= half_exponent_of u32 ->
  half_exponent_of u32 <> 0x1f ->
  let he := half_exponent_of u32 in
  let coef := Z.land u32 0x7fffff in
  let half_sign := Z.shiftr (Z.land u32 0x80000000) 16 in
  let significand := if he <=? 0 then Z.lor coef 0x800000 else coef in
  let round_bit := if he <=? 0 then Z.shiftl 1 (13 - he) else 0x1000 in
  let k := if he <=? 0 then 13 - he else 12 in
  let increment :=
    truthy (Z.land significand round_bit)
    && truthy (Z.land significand (3 * round_bit - 1)) in
  round_bit = 2 ^ k
  /\ float32_to_float16 u32
     = to_float16
         (if he <=? 0
          then Z.lor half_sign (Z.shiftr significand (k + 1) + Z.b2z increment)
          else truncated_normal u32 + Z.b2z increment)
  /\ increment = rne_increment significand k.
Proof.
  intros Hfin Hlo Hne. cbv zeta.
  set (he := half_exponent_of u32) in *.
  assert (Hround : forall c j, 0 <= j <= 29 ->
            truthy (Z.land c (2 ^ j)) && truthy (Z.land c (3 * 2 ^ j - 1))
            = round_up c (2 ^ j)).
  { intros c j Hj. unfold round_up.
    replace (wrap32 (3 * 2 ^ j - 1)) with (3 * 2 ^ j - 1); [reflexivity|].
    unfold wrap32. symmetry. apply Z.mod_small.
    assert (0 < 2 ^ j) by (apply Z.pow_pos_nonneg; lia).
    assert (2 ^ j <= 2 ^ 29) by (apply Z.pow_le_mono_r; lia).
    change (2 ^ 29) with 536870912 in *. change (2 ^ 32) with 4294967296. lia. }
  destruct (Z.leb_spec he 0) as [Hsub|Hnorm].
  - rewrite Z.shiftl_1_l, Hround by lia.
    split; [reflexivity|]. split.
    + apply (float32_to_float16_subnormal_path u32 Hfin). fold he. lia.
    + apply round_up_rne. lia.
  - change 0x1000 with (2 ^ 12). rewrite Hround by lia.
    split; [reflexivity|]. split.
    + apply (float32_to_float16_normal_path u32 Hfin); fold he; lia.
    + apply round_up_rne. lia.
Qed.

Lemma float32_to_float16_rounding_witness :
  (finite32 0x40003000 = true /\ float32_to_float16 0x40003000 = 0x4002)
  /\ (finite32 0x387fda40 = true /\ float32_to_float16 0x387fda40 = 0x03ff).
Proof.
  assert (H1 : finite32 0x40003000 = true) by reflexivity.
  assert (H2 : finite32 0x387fda40 = true) by reflexivity.
  split; (split; [assumption|]).
  - assert (L1 : -10 <= half_exponent_of 0x40003000) by (vm_compute; discriminate).
    assert (N1 : half_exponent_of 0x40003000 <> 0x1f) by (vm_compute; discriminate).
    exact (proj1 (proj2 (float32_to_float16_rounding 0x40003000 H1 L1 N1))).
  - assert (L2 : -10 <= half_exponent_of 0x387fda40) by (vm_compute; discriminate).
    assert (N2 : half_exponent_of 0x387fda40 <> 0x1f) by (vm_compute; discriminate).
    exact (proj1 (proj2 (float32_to_float16_rounding 0x387fda40 H2 L2 N2))).
Defined.

(** ** Decimal literals as binary32 patterns *)

Lemma binary32_fields (b : Z) :
  0 <= b < 2 ^ 31 ->
  Z.land (Z.shiftr b 31) 1 = 0
  /\ Z.land (Z.shiftr b 23) 0xff = b / 2 ^ 23
  /\ Z.land b 0x7fffff = b mod 2 ^ 23.
Proof.
  intros Hb. repeat split.
  - rewrite Z.shiftr_div_pow2, Z.div_small by lia. reflexivity.
  - rewrite Z.shiftr_div_pow2 by lia. change 0xff with (Z.ones 8).
    rewrite Z.land_ones by lia. apply Z.mod_small.
    split; [apply Z.div_pos; lia|].
    apply Z.div_lt_upper_bound; [lia|]. change (2 ^ 23 * 2 ^ 8) with (2 ^ 31). lia.
  - change 0x7fffff with (Z.ones 23). apply Z.land_ones. lia.
Qed.

Lemma binary32_ulps_monotone (b1 b2 : Z) :
  0 <= b1 -> b1 <= b2 -> b2 < 2 ^ 31 -> binary32_ulps b1 <= binary32_ulps b2.
Proof.
  intros H0 Hle Hhi. unfold binary32_ulps. cbv zeta.
  destruct (binary32_fields b1 ltac:(lia)) as (_ & -> & ->).
  destruct (binary32_fields b2 ltac:(lia)) as (_ & -> & ->).
  pose proof (Z.div_mod b1 (2 ^ 23) ltac:(lia)) as D1.
  pose proof (Z.div_mod b2 (2 ^ 23) ltac:(lia)) as D2.
  pose proof (Z.mod_pos_bound b1 (2 ^ 23) ltac:(lia)) as M1.
  pose proof (Z.mod_pos_bound b2 (2 ^ 23) ltac:(lia)) as M2.
  assert (E1 : 0 <= b1 / 2 ^ 23) by (apply Z.div_pos; lia).
  assert (E12 : b1 / 2 ^ 23 <= b2 / 2 ^ 23) by (apply Z.div_le_mono; lia).
  set (e1 := b1 / 2 ^ 23) in *. set (e2 := b2 / 2 ^ 23) in *.
  set (m1 := b1 mod 2 ^ 23) in *. set (m2 := b2 mod 2 ^ 23) in *.
  change (2 ^ 23) with 8388608 in *.
  destruct (Z.eqb_spec e1 0) as [Z1|NZ1]; destruct (Z.eqb_spec e2 0) as [Z2|NZ2].
  - lia.
  - assert (0 < 2 ^ (e2 - 1)) by (apply Z.pow_pos_nonneg; lia). nia.
  - lia.
  - assert (P1 : 0 < 2 ^ (e1 - 1)) by (apply Z.pow_pos_nonneg; lia).
    destruct (Z.eq_dec e1 e2) as [Heq|Hneq].
    + rewrite <- Heq. assert (m1 <= m2) by lia. nia.
    + assert (P2 : 2 * 2 ^ (e1 - 1) <= 2 ^ (e2 - 1)).
      { replace (2 * 2 ^ (e1 - 1)) with (2 ^ (e1 - 1 + 1))
          by (rewrite Z.pow_add_r by lia; change (2 ^ 1) with 2; lia).
        apply Z.pow_le_mono_r; lia. }
      nia.
Qed.

Lemma binary32_value_ulps (b : Z) :
  Z.land (Z.shiftr b 23) 0xff <> 0xff ->
  exists m, binary32_value b = Finite (negb (Z.land (Z.shiftr b 31) 1 =? 0)) m
            /\ (m == inject_Z (binary32_ulps b) * 2 ^ (-149))%Q.
Proof.
  intros Hfin. unfold binary32_value, binary32_ulps. cbv zeta.
  assert (He : 0 <= Z.land (Z.shiftr b 23) 0xff) by (apply Z.land_nonneg; lia).
  set (e := Z.land (Z.shiftr b 23) 0xff) in *.
  destruct (Z.eqb_spec e 0xff) as [|_]; [contradiction|].
  destruct (Z.eqb_spec e 0) as [_|Hnz]; eexists; (split; [reflexivity|]).
  - reflexivity.
  - rewrite inject_Z_mult, Zpower_Qpower by lia.
    replace (e - 150) with ((e - 1) + (-149)) by lia.
    rewrite Qpower_plus by discriminate.
    change (inject_Z 2) with 2%Q. ring.
Qed.

Lemma binary32_ulps_nonneg (b : Z) : 0 <= binary32_ulps b.
Proof.
  unfold binary32_ulps. cbv zeta.
  assert (Hm : 0 <= Z.land b 0x7fffff) by (apply Z.land_nonneg; lia).
  destruct (_ =? 0); [exact Hm|].
  apply Z.mul_nonneg_nonneg; [lia | apply Z.pow_nonneg; lia].
Qed.

(** The rational a non-negative finite pattern stands for. *)
Lemma real_of_nonneg_pattern (b : Z) :
  0 <= b < 0x7f800000 ->
  exists v, real_of (binary32_value b) = Some v
            /\ (v == inject_Z (binary32_ulps b) * 2 ^ (-149))%Q.
Proof.
  intros Hb.
  destruct (binary32_fields b ltac:(lia)) as (Hs & He & _).
  destruct (binary32_value_ulps b) as (m & Hv & Hm).
  - rewrite He. intros H255.
    assert (255 * 2 ^ 23 <= b); [|lia].
    rewrite <- H255. rewrite Z.mul_comm. apply Z.mul_div_le. lia.
  - rewrite Hs in Hv. cbn in Hv. exists m. rewrite Hv. split; [reflexivity | exact Hm].
Qed.

Lemma real_of_uint32 (b : Z) (v : Q) :
  is_uint32 b -> real_of (binary32_value b) = Some v ->
  (0 <= b < 0x7f800000 /\ (v == inject_Z (binary32_ulps b) * 2 ^ (-149))%Q)
  \/ (v <= 0)%Q.
Proof.
  intros Hb Hv.
  destruct (Z.eqb_spec (Z.land (Z.shiftr b 23) 0xff) 0xff) as [Hinf|Hfin].
  { unfold binary32_value in Hv. cbv zeta in Hv.
    rewrite Hinf in Hv. cbn in Hv. destruct (_ =? 0); discriminate. }
  destruct (binary32_value_ulps b Hfin) as (m & Hval & Hm).
  rewrite Hval in Hv.
  assert (Hmnn : (0 <= m)%Q).
  { rewrite Hm. apply Qmult_le_0_compat; [|vm_compute; discriminate].
    change 0%Q with (inject_Z 0). rewrite <- Zle_Qle. apply binary32_ulps_nonneg. }
  destruct (Z_lt_ge_dec b (2 ^ 31)) as [Hlt|Hge].
  - left. destruct (binary32_fields b ltac:(unfold is_uint32 in Hb; lia)) as (Hs & He & _).
    rewrite Hs in Hv. cbn in Hv. injection Hv as <-.
    split; [|exact Hm]. split; [unfold is_uint32 in Hb; lia|].
    rewrite He in Hfin.
    destruct (Z_lt_ge_dec b 0x7f800000) as [|Hbig]; [assumption|exfalso].
    apply Hfin. apply Z.le_antisymm.
    + assert (b / 2 ^ 23 < 256); [|lia].
      apply Z.div_lt_upper_bound; [lia|]. change (2 ^ 23 * 256) with (2 ^ 31). lia.
    + apply Z.div_le_lower_bound; lia.
  - right.
    assert (Hs : Z.land (Z.shiftr b 31) 1 = 1).
    { rewrite Z.shiftr_div_pow2 by lia.
      assert (H1 : b / 2 ^ 31 = 1); [|rewrite H1; reflexivity].
      unfold is_uint32 in Hb.
      apply Z.le_antisymm; [|apply Z.div_le_lower_bound; lia].
      assert (b / 2 ^ 31 < 2); [|lia].
      apply Z.div_lt_upper_bound; [lia|]. change (2 ^ 31 * 2) with (2 ^ 32). lia. }
    rewrite Hs in Hv. cbn in Hv. injection Hv as <-. lra.
Qed.

Lemma Qabs_diff_lower (a x : Q) :
  (x - a <= Qabs (a - x))%Q /\ (a - x <= Qabs (a - x))%Q.
Proof.
  split.
  - apply (Qabs_case (a - x) (fun y => x - a <= y)%Q); intros; lra.
  - apply Qle_Qabs.
Qed.

(** A rational bracketed by two adjacent non-negative patterns is
    nearest to whichever of the two is closer. *)
Lemma nearest_binary32_bracket (x : Q) (lo b : Z) :
  0 <= lo -> lo + 1 < 0x7f800000 ->
  let vlo := (inject_Z (binary32_ulps lo) * 2 ^ (-149))%Q in
  let vhi := (inject_Z (binary32_ulps (lo + 1)) * 2 ^ (-149))%Q in
  (vlo <= x)%Q -> (x <= vhi)%Q ->
  (b = lo /\ (x - vlo <= vhi - x)%Q) \/ (b = lo + 1 /\ (vhi - x <= x - vlo)%Q) ->
  nearest_binary32 x b.
Proof.
  intros Hlo Hhi vlo vhi Hbelow Habove Hcloser.
  assert (Hmono : forall b1 b2, 0 <= b1 -> b1 <= b2 -> b2 < 2 ^ 31 ->
            (inject_Z (binary32_ulps b1) * 2 ^ (-149)
             <= inject_Z (binary32_ulps b2) * 2 ^ (-149))%Q).
  { intros b1 b2 H1 H2 H3. apply Qmult_le_compat_r; [|vm_compute; discriminate].
    rewrite <- Zle_Qle. apply binary32_ulps_monotone; assumption. }
  assert (Hb : 0 <= b < 0x7f800000) by (destruct Hcloser as [[-> _]|[-> _]]; lia).
  split; [unfold is_uint32; lia|].
  destruct (real_of_nonneg_pattern b Hb) as (v & Hv & Hveq).
  exists v. split; [exact Hv|].
  intros b' v' Hb' Hv'.
  assert (Hdist : (Qabs (v - x) <= x - vlo)%Q /\ (Qabs (v - x) <= vhi - x)%Q).
  { rewrite Hveq. destruct Hcloser as [[-> Hc]|[-> Hc]].
    - fold vlo. rewrite Qabs_neg by lra. split; lra.
    - fold vhi. rewrite Qabs_pos by lra. split; lra. }
  destruct Hdist as [Hd1 Hd2].
  destruct (real_of_uint32 b' v' Hb' Hv') as [[Hr Hveq']|Hneg].
  - destruct (Z_le_gt_dec b' lo) as [Hle|Hgt].
    + pose proof (Hmono b' lo ltac:(lia) Hle ltac:(lia)) as Hm. fold vlo in Hm.
      apply Qle_trans with (x - vlo)%Q; [exact Hd1|].
      apply Qle_trans with (x - v')%Q; [rewrite Hveq'; lra | apply Qabs_diff_lower].
    + pose proof (Hmono (lo + 1) b' ltac:(lia) ltac:(lia) ltac:(lia)) as Hm. fold vhi in Hm.
      apply Qle_trans with (vhi - x)%Q; [exact Hd2|].
      apply Qle_trans with (v' - x)%Q; [rewrite Hveq'; lra | apply Qabs_diff_lower].
  - assert (Hvlo : (0 <= vlo)%Q).
    { unfold vlo. apply Qmult_le_0_compat; [|vm_compute; discriminate].
      change 0%Q with (inject_Z 0). rewrite <- Zle_Qle. apply binary32_ulps_nonneg. }
    apply Qle_trans with (x - vlo)%Q; [exact Hd1|].
    apply Qle_trans with (x - v')%Q; [lra | apply Qabs_diff_lower].
Qed.

(** The three decimal literals of the boundary examples and the
    binary32 patterns the host reads them as. *)
Lemma nearest_65520 : nearest_binary32 65520 0x477ff000.
Proof.
  apply (nearest_binary32_bracket 65520 0x477ff000); try lia;
    try (vm_compute; discriminate).
  left. split; [reflexivity | vm_compute; discriminate].
Qed.

Lemma nearest_5_96e_8 : nearest_binary32 (596 # 10000000000) 0x337ffae5.
Proof.
  apply (nearest_binary32_bracket (596 # 10000000000) 0x337ffae4); try lia;
    try (vm_compute; discriminate).
  right. split; [reflexivity | vm_compute; discriminate].
Qed.

Lemma nearest_6_1e_5 : nearest_binary32 (61 # 1000000) 0x387fda40.
Proof.
  apply (nearest_binary32_bracket (61 # 1000000) 0x387fda40); try lia;
    try (vm_compute; discriminate).
  left. split; [reflexivity | vm_compute; discriminate].
Qed.

(** The specification's boundary examples, as worded: the second and
    the third do not hold.  The binary32 nearest to [5.96e-8] is just
    under [2^-24] and well above [2^-25], so it narrows to the smallest
    subnormal [0x0001], not to zero; the binary32 nearest to [6.1e-5]
    is under [2^-14] and narrows to the largest subnormal [0x03ff], not
    to [0x0400]. *)
Lemma worded_boundaries_fail :
  (nearest_binary32 (596 # 10000000000) 0x337ffae5
   /\ float32_to_float16 0x337ffae5 <> 0x0000)
  /\ (nearest_binary32 (61 # 1000000) 0x387fda40
      /\ float32_to_float16 0x387fda40 <> 0x0400).
Proof.
  split; (split; [first [exact nearest_5_96e_8 | exact nearest_6_1e_5]
                 | vm_compute; discriminate]).
Qed.

(** C6 (as amended): [float32_to_float16] maps the binary32 [65520.0]
    to +infinity ([0x7c00]), the binary32 nearest to [5.96e-8] to the
    smallest positive subnormal ([0x0001]), and the binary32 nearest to
    [6.1e-5] to the largest subnormal ([0x03ff]). *)
Theorem float32_to_float16_boundaries :
  (nearest_binary32 65520 0x477ff000
   /\ float32_to_float16 0x477ff000 = data_ fp16_infinity)
  /\ (nearest_binary32 (596 # 10000000000) 0x337ffae5
      /\ float32_to_float16 0x337ffae5 = data_ fp16_min_positive_subnormal)
  /\ (nearest_binary32 (61 # 1000000) 0x387fda40
      /\ float32_to_float16 0x387fda40 = data_ fp16_max_subnormal).
Proof.
  split; [|split]; (split; [|reflexivity]).
  - exact nearest_65520.
  - exact nearest_5_96e_8.
  - exact nearest_6_1e_5.
Qed.

(** ** The fields of a binary32 pattern *)

Lemma forall_bits_range (n : nat) (p : Z -> bool) :
  forall_bits n 0 p = true -> forall z, 0 <= z < 2 ^ Z.of_nat n -> p z = true.
Proof.
  intros Hall z Hz. apply (forall_bits_sound n 0 p Hall). lia.
Qed.

(** A mask made of the bits from [k] upwards cuts out a multiple of
    [2^k]. *)
Lemma land_high_mask (u mask k : Z) :
  0 <= k -> Z.land mask (Z.ones k) = 0 ->
  Z.land u mask = 2 ^ k * Z.land (Z.shiftr u k) (Z.shiftr mask k).
Proof.
  intros Hk Hmask.
  pose proof (Z.pow_pos_nonneg 2 k ltac:(lia) Hk) as Hpos.
  rewrite <- Z.shiftr_land, Z.shiftr_div_pow2 by lia.
  rewrite (Z.div_mod (Z.land u mask) (2 ^ k)) at 1 by lia.
  rewrite <- Z.land_ones, <- Z.land_assoc, Hmask, Z.land_0_r by lia. lia.
Qed.

Lemma uint32_fields (u : Z) :
  is_uint32 u ->
  let s := u / 2 ^ 31 in
  let e := (u / 2 ^ 23) mod 2 ^ 8 in
  let m := u mod 2 ^ 23 in
  (0 <= s <= 1 /\ 0 <= e < 256 /\ 0 <= m < 2 ^ 23
   /\ u = s * 2 ^ 31 + e * 2 ^ 23 + m)
  /\ (Z.land u 0x80000000 = s * 2 ^ 31
      /\ Z.land u 0x7f800000 = e * 2 ^ 23
      /\ Z.land u 0x7fffff = m)
  /\ (Z.land (Z.shiftr u 31) 1 = s /\ Z.land (Z.shiftr u 23) 0xff = e).
Proof.
  intros [Hlo Hhi]. cbv zeta.
  pose proof (Z.div_mod u (2 ^ 23) ltac:(lia)) as D23.
  pose proof (Z.mod_pos_bound u (2 ^ 23) ltac:(lia)) as M23.
  pose proof (Z.div_mod (u / 2 ^ 23) (2 ^ 8) ltac:(lia)) as D8.
  pose proof (Z.mod_pos_bound (u / 2 ^ 23) (2 ^ 8) ltac:(lia)) as M8.
  rewrite Z.div_div in D8 by lia. change (2 ^ 23 * 2 ^ 8) with (2 ^ 31) in D8.
  assert (Hs : 0 <= u / 2 ^ 31 <= 1).
  { split; [apply Z.div_pos; lia|].
    assert (u / 2 ^ 31 < 2); [|lia].
    apply Z.div_lt_upper_bound; [lia|]. change (2 ^ 31 * 2) with (2 ^ 32). lia. }
  assert (Hsign : Z.land (Z.shiftr u 31) 1 = u / 2 ^ 31).
  { rewrite Z.shiftr_div_pow2 by lia.
    change (Z.land (u / 2 ^ 31) 1) with (Z.land (u / 2 ^ 31) (Z.ones 1)).
    rewrite Z.land_ones by lia. apply Z.mod_small. change (2 ^ 1) with 2. lia. }
  assert (Hexp : Z.land (Z.shiftr u 23) 0xff = (u / 2 ^ 23) mod 2 ^ 8).
  { rewrite Z.shiftr_div_pow2 by lia. change 0xff with (Z.ones 8).
    apply Z.land_ones. lia. }
  split; [|split].
  - change (2 ^ 8) with 256 in *. repeat split; try lia.
  - repeat split.
    + rewrite (land_high_mask u 0x80000000 31) by (lia || reflexivity).
      change (Z.shiftr 0x80000000 31) with 1. rewrite Hsign. lia.
    + rewrite (land_high_mask u 0x7f800000 23) by (lia || reflexivity).
      change (Z.shiftr 0x7f800000 23) with 0xff. rewrite Hexp. lia.
    + change 0x7fffff with (Z.ones 23). apply Z.land_ones. lia.
  - split; assumption.
Qed.

(** What the header computes from the exponent field. *)
Lemma half_exponent_of_fields (u : Z) :
  is_uint32 u -> half_exponent_of u = (u / 2 ^ 23) mod 2 ^ 8 - 112.
Proof.
  intros Hu. destruct (uint32_fields u Hu) as ((_ & He & _) & (_ & Hland & _) & _).
  unfold half_exponent_of. rewrite Hland.
  rewrite Z.shiftr_div_pow2, Z.div_mul by lia.
  set (e := (u / 2 ^ 23) mod 2 ^ 8) in *.
  apply (forall_bits_range 8
           (fun e => to_int32 (wrap32 (e - 127)) + 15 =? e - 112)) in He;
    [apply Z.eqb_eq; exact He | vm_cast_no_check (eq_refl true)].
Qed.

Lemma finite32_fields (u : Z) :
  is_uint32 u -> finite32 u = negb ((u / 2 ^ 23) mod 2 ^ 8 =? 255).
Proof.
  intros Hu. destruct (uint32_fields u Hu) as ((_ & He & _) & (_ & Hland & _) & _).
  unfold finite32. rewrite Hland. f_equal.
  destruct (Z.eqb_spec ((u / 2 ^ 23) mod 2 ^ 8) 255) as [->|Hne].
  - reflexivity.
  - apply Z.eqb_neq. change 0x7f800000 with (255 * 2 ^ 23). lia.
Qed.

(** The fields determine the pattern. *)
Lemma uint32_of_fields (s e m : Z) :
  0 <= s <= 1 -> 0 <= e < 256 -> 0 <= m < 2 ^ 23 ->
  let u := s * 2 ^ 31 + e * 2 ^ 23 + m in
  is_uint32 u /\ u / 2 ^ 31 = s /\ (u / 2 ^ 23) mod 2 ^ 8 = e /\ u mod 2 ^ 23 = m.
Proof.
  intros Hs He Hm. cbv zeta.
  change (2 ^ 31) with 2147483648 in *. change (2 ^ 23) with 8388608 in *.
  change (2 ^ 8) with 256 in *. unfold is_uint32. change (2 ^ 32) with 4294967296.
  repeat split; try lia.
  - symmetry. apply (Z.div_unique _ _ _ (e * 8388608 + m)); lia.
  - assert (Hq : (s * 2147483648 + e * 8388608 + m) / 8388608 = s * 256 + e).
    { symmetry. apply (Z.div_unique _ _ _ m); lia. }
    rewrite Hq. symmetry. apply (Z.mod_unique _ _ s); lia.
  - symmetry. apply (Z.mod_unique _ _ (s * 256 + e)); lia.
Qed.

(** ** Narrowing in closed form, path by path *)

Lemma half_sign_fields (u : Z) :
  is_uint32 u -> Z.shiftr (Z.land u 0x80000000) 16 = u / 2 ^ 31 * 2 ^ 15.
Proof.
  intros Hu. destruct (uint32_fields u Hu) as ((Hs & _) & (-> & _) & _).
  rewrite Z.shiftr_div_pow2 by lia.
  assert (Hc : u / 2 ^ 31 = 0 \/ u / 2 ^ 31 = 1) by lia.
  destruct Hc as [-> | ->]; reflexivity.
Qed.

Lemma lor_implicit_bit (m : Z) :
  0 <= m < 2 ^ 23 -> Z.lor m 0x800000 = 2 ^ 23 + m.
Proof.
  intros Hm.
  assert (Hdisj : Z.land m 0x800000 = 0).
  { change 0x800000 with (2 ^ 23). rewrite land_pow2 by lia.
    replace (Z.testbit m 23) with false; [reflexivity|].
    symmetry. destruct (Z.eq_dec m 0) as [->|Hnz]; [apply Z.bits_0|].
    apply Z.bits_above_log2; [lia|]. apply Z.log2_lt_pow2; lia. }
  rewrite <- Z.lxor_lor, <- Z.add_nocarry_lxor by exact Hdisj.
  change 0x800000 with (2 ^ 23). lia.
Qed.

Lemma rne_increment_implicit_bit (m : Z) :
  rne_increment (2 ^ 23 + m) 12 = rne_increment m 12.
Proof.
  unfold rne_increment. cbv zeta. change (12 + 1) with 13.
  change (2 ^ 23) with (2 ^ 10 * 2 ^ 13).
  rewrite (Z.add_comm _ m), Z_mod_plus_full, Z.div_add by lia.
  rewrite Z.odd_add. change (Z.odd (2 ^ 10)) with false. rewrite xorb_false_r.
  reflexivity.
Qed.

(** Infinities and NaNs: exponent field 255. *)
Lemma float32_to_float16_special (u : Z) :
  is_uint32 u -> (u / 2 ^ 23) mod 2 ^ 8 = 255 ->
  let m := u mod 2 ^ 23 in
  float32_to_float16 u
  = u / 2 ^ 31 * 2 ^ 15 + 0x7c00
    + Z.lor (if m =? 0 then 0 else 0x200) (m / 2 ^ 13).
Proof.
  intros Hu He. cbv zeta.
  pose proof (finite32_fields u Hu) as Hfin. rewrite He in Hfin. cbn in Hfin.
  unfold finite32 in Hfin. apply negb_false_iff in Hfin.
  destruct (uint32_fields u Hu) as ((Hs & _ & Hm & _) & (_ & _ & Hcoef) & _).
  unfold float32_to_float16. cbv zeta.
  rewrite Hfin, (half_sign_fields u Hu), Hcoef, Z.shiftr_div_pow2 by lia.
  set (s := u / 2 ^ 31) in *. set (m := u mod 2 ^ 23) in *.
  assert (Ht : 0 <= m / 2 ^ 13 < 2 ^ Z.of_nat 10).
  { split; [apply Z.div_pos; lia|].
    apply Z.div_lt_upper_bound; [lia|]. change (2 ^ 13 * 2 ^ Z.of_nat 10) with (2 ^ 23). lia. }
  assert (Hs' : 0 <= s < 2 ^ Z.of_nat 1) by (change (2 ^ Z.of_nat 1) with 2; lia).
  pose proof (forall_bits_range 1
    (fun s => forall_bits 10 0 (fun t =>
       (to_float16 (Z.lor (Z.lor (Z.lor (s * 2 ^ 15) 0x7c00) 0) t)
        =? s * 2 ^ 15 + 0x7c00 + Z.lor 0 t)
       && (to_float16 (Z.lor (Z.lor (Z.lor (s * 2 ^ 15) 0x7c00) 0x200) t)
           =? s * 2 ^ 15 + 0x7c00 + Z.lor 0x200 t)))) as Hall.
  specialize (Hall ltac:(vm_cast_no_check (eq_refl true)) s Hs').
  apply (fun H => forall_bits_range 10 _ H (m / 2 ^ 13) Ht) in Hall.
  apply andb_prop in Hall as [H0 H1]. apply Z.eqb_eq in H0, H1.
  destruct (m =? 0); cbn [negb]; assumption.
Qed.

(** [half_exponent == 0x1f]: exponent field 143. *)
Lemma float32_to_float16_exponent_143 (u : Z) :
  is_uint32 u -> (u / 2 ^ 23) mod 2 ^ 8 = 143 ->
  float32_to_float16 u = u / 2 ^ 31 * 2 ^ 15 + 0x7c00.
Proof.
  intros Hu He.
  rewrite float32_to_float16_half_exponent_0x1f.
  - rewrite (half_sign_fields u Hu).
    destruct (uint32_fields u Hu) as ((Hs & _) & _).
    assert (Hc : u / 2 ^ 31 = 0 \/ u / 2 ^ 31 = 1) by lia.
    destruct Hc as [-> | ->]; reflexivity.
  - rewrite (finite32_fields u Hu), He. reflexivity.
  - rewrite (half_exponent_of_fields u Hu), He. reflexivity.
Qed.

(** [half_exponent < -10]: exponent field at most 101. *)
Lemma float32_to_float16_tiny (u : Z) :
  is_uint32 u -> (u / 2 ^ 23) mod 2 ^ 8 <= 101 ->
  float32_to_float16 u = u / 2 ^ 31 * 2 ^ 15.
Proof.
  intros Hu He.
  assert (Hfin : finite32 u = true)
    by (rewrite (finite32_fields u Hu); apply negb_true_iff, Z.eqb_neq; lia).
  pose proof (half_exponent_of_fields u Hu) as Hhe.
  unfold finite32 in Hfin. apply negb_true_iff in Hfin.
  unfold half_exponent_of in Hhe.
  unfold float32_to_float16. cbv zeta.
  rewrite Hhe, Hfin, (half_sign_fields u Hu).
  set (e := (u / 2 ^ 23) mod 2 ^ 8) in *.
  destruct (Z.eqb_spec (e - 112) 0x1f) as [|_]; [lia|].
  destruct (Z.leb_spec (e - 112) 0) as [_|]; [|lia].
  destruct (Z.ltb_spec (e - 112) (-10)) as [_|]; [|lia].
  destruct (uint32_fields u Hu) as ((Hs & _) & _).
  assert (Hc : u / 2 ^ 31 = 0 \/ u / 2 ^ 31 = 1) by lia.
  destruct Hc as [-> | ->]; reflexivity.
Qed.

(** The subnormal path: exponent field 102 to 112. *)
Lemma float32_to_float16_subnormal_range (u : Z) :
  is_uint32 u -> 102 <= (u / 2 ^ 23) mod 2 ^ 8 <= 112 ->
  let e := (u / 2 ^ 23) mod 2 ^ 8 in
  let c := 2 ^ 23 + u mod 2 ^ 23 in
  let y := c / 2 ^ (126 - e) + Z.b2z (rne_increment c (125 - e)) in
  float32_to_float16 u = u / 2 ^ 31 * 2 ^ 15 + y /\ 0 <= y <= 2 ^ 10.
Proof.
  intros Hu He. cbv zeta.
  pose proof (finite32_fields u Hu) as Hfin.
  pose proof (half_exponent_of_fields u Hu) as Hhe.
  destruct (uint32_fields u Hu) as ((Hs & _ & Hm & _) & (_ & _ & Hcoef) & _).
  set (e := (u / 2 ^ 23) mod 2 ^ 8) in *.
  assert (Hfin' : finite32 u = true)
    by (rewrite Hfin; apply negb_true_iff, Z.eqb_neq; lia).
  pose proof (float32_to_float16_subnormal_path u Hfin' ltac:(lia)) as Hpath.
  cbv zeta in Hpath.
  rewrite Hhe, Hcoef, (half_sign_fields u Hu), (lor_implicit_bit _ Hm) in Hpath.
  replace (13 - (e - 112)) with (125 - e) in Hpath by lia.
  rewrite round_up_rne, Z.shiftr_div_pow2 in Hpath by lia.
  replace (126 - e) with (125 - e + 1) by lia.
  set (c := 2 ^ 23 + u mod 2 ^ 23) in *.
  set (y := c / 2 ^ (125 - e + 1) + Z.b2z (rne_increment c (125 - e))) in *.
  assert (Hy : 0 <= y <= 2 ^ 10).
  { assert (Hq : 0 <= c / 2 ^ (125 - e + 1) < 2 ^ 10).
    { assert (Hp : 0 < 2 ^ (125 - e + 1)) by (apply Z.pow_pos_nonneg; lia).
      split; [apply Z.div_pos; lia|].
      apply Z.div_lt_upper_bound; [lia|].
      assert (2 ^ 14 <= 2 ^ (125 - e + 1)) by (apply Z.pow_le_mono_r; lia).
      change (2 ^ 23) with 8388608 in *. change (2 ^ 14) with 16384 in *.
      change (2 ^ 10) with 1024. unfold c. nia. }
    unfold y. destruct (rne_increment c (125 - e)); cbn [Z.b2z]; lia. }
  split; [|exact Hy].
  rewrite Hpath.
  assert (Hs' : 0 <= u / 2 ^ 31 < 2 ^ Z.of_nat 1) by (change (2 ^ Z.of_nat 1) with 2; lia).
  assert (Hy' : 0 <= y < 2 ^ Z.of_nat 11)
    by (change (2 ^ Z.of_nat 11) with 2048; change (2 ^ 10) with 1024 in Hy; lia).
  pose proof (forall_bits_range 1
    (fun s => forall_bits 11 0 (fun y =>
       to_float16 (Z.lor (s * 2 ^ 15) y) =? s * 2 ^ 15 + y))) as Hall.
  specialize (Hall ltac:(vm_cast_no_check (eq_refl true)) _ Hs').
  apply (fun H => forall_bits_range 11 _ H y Hy') in Hall.
  apply Z.eqb_eq. exact Hall.
Qed.

(** The normal path up to the largest half exponent: exponent field
    113 to 142. *)
Lemma float32_to_float16_normal_range (u : Z) :
  is_uint32 u -> 113 <= (u / 2 ^ 23) mod 2 ^ 8 <= 142 ->
  let e := (u / 2 ^ 23) mod 2 ^ 8 in
  let m := u mod 2 ^ 23 in
  float32_to_float16 u
  = u / 2 ^ 31 * 2 ^ 15
    + ((e - 112) * 2 ^ 10 + m / 2 ^ 13 + Z.b2z (rne_increment m 12)).
Proof.
  intros Hu He. cbv zeta.
  pose proof (finite32_fields u Hu) as Hfin.
  pose proof (half_exponent_of_fields u Hu) as Hhe.
  destruct (uint32_fields u Hu) as ((Hs & _ & Hm & _) & (_ & _ & Hcoef) & _).
  set (e := (u / 2 ^ 23) mod 2 ^ 8) in *.
  assert (Hfin' : finite32 u = true)
    by (rewrite Hfin; apply negb_true_iff, Z.eqb_neq; lia).
  rewrite (float32_to_float16_normal_path u Hfin') by lia.
  unfold truncated_normal.
  rewrite Hhe, Hcoef, (half_sign_fields u Hu), Z.shiftr_div_pow2 by lia.
  change 0x1000 with (2 ^ 12). rewrite round_up_rne by lia.
  set (m := u mod 2 ^ 23) in *.
  assert (Ht : 0 <= m / 2 ^ 13 < 2 ^ Z.of_nat 10).
  { split; [apply Z.div_pos; lia|].
    apply Z.div_lt_upper_bound; [lia|]. change (2 ^ 13 * 2 ^ Z.of_nat 10) with (2 ^ 23). lia. }
  assert (Hs' : 0 <= u / 2 ^ 31 < 2 ^ Z.of_nat 1) by (change (2 ^ Z.of_nat 1) with 2; lia).
  assert (He' : 0 <= e - 112 < 2 ^ Z.of_nat 5) by (change (2 ^ Z.of_nat 5) with 32; lia).
  pose proof (forall_bits_range 1
    (fun s => forall_bits 5 0 (fun he => forall_bits 10 0 (fun t =>
       (to_float16 (Z.lor (Z.lor (s * 2 ^ 15) (wrap32 (Z.shiftl he 10))) t + 0)
        =? s * 2 ^ 15 + (he * 2 ^ 10 + t + 0))
       && ((he =? 0) || (he =? 31)
           || (to_float16 (Z.lor (Z.lor (s * 2 ^ 15) (wrap32 (Z.shiftl he 10))) t + 1)
               =? s * 2 ^ 15 + (he * 2 ^ 10 + t + 1))))))) as Hall.
  specialize (Hall ltac:(vm_cast_no_check (eq_refl true)) _ Hs').
  apply (fun H => forall_bits_range 5 _ H _ He') in Hall.
  apply (fun H => forall_bits_range 10 _ H _ Ht) in Hall.
  apply andb_prop in Hall as [H0 H1].
  destruct (Z.eqb_spec (e - 112) 0) as [|_]; [lia|].
  destruct (Z.eqb_spec (e - 112) 31) as [|_]; [lia|].
  cbn [orb] in H1. apply Z.eqb_eq in H0, H1.
  destruct (rne_increment m 12); cbn [Z.b2z]; assumption.
Qed.

(** ** What narrowing does to the value *)

Lemma binary32_value_finite_fields (u : Z) :
  is_uint32 u -> 1 <= (u / 2 ^ 23) mod 2 ^ 8 <= 254 ->
  binary32_value u
  = Finite (negb (u / 2 ^ 31 =? 0))
      (inject_Z (2 ^ 23 + u mod 2 ^ 23) * 2 ^ ((u / 2 ^ 23) mod 2 ^ 8 - 150))%Q.
Proof.
  intros Hu He.
  destruct (uint32_fields u Hu) as (_ & (_ & _ & Hcoef) & (Hsign & Hexp)).
  unfold binary32_value. cbv zeta. rewrite Hsign, Hexp, Hcoef.
  destruct (Z.eqb_spec ((u / 2 ^ 23) mod 2 ^ 8) 0xff) as [|_]; [lia|].
  destruct (Z.eqb_spec ((u / 2 ^ 23) mod 2 ^ 8) 0) as [|_]; [lia|].
  reflexivity.
Qed.

(** X6: on a finite input whose exponent field is 113 to 142 (the
    normal range of the half format), the result reads as the input's
    24-bit significand [c] rounded to 11 bits [y], to nearest with ties
    to even, at the input's exponent; a carry out of the top binade
    gives the infinity. *)
Theorem float32_to_float16_normal_correctly_rounded (u32 : Z) :
  is_uint32 u32 ->
  113 <= (u32 / 2 ^ 23) mod 2 ^ 8 <= 142 ->
  let negative := negb (u32 / 2 ^ 31 =? 0) in
  let he := (u32 / 2 ^ 23) mod 2 ^ 8 - 112 in
  let c := 2 ^ 23 + u32 mod 2 ^ 23 in
  let y := c / 2 ^ 13 + Z.b2z (rne_increment c 12) in
  binary32_value u32 = Finite negative (inject_Z c * 2 ^ (he + 112 - 150))%Q
  /\ same_value (binary16_value (float32_to_float16 u32))
       (if (he =? 30) && (y =? 2 ^ 11) then Infinite negative
        else Finite negative (inject_Z y * 2 ^ (he - 25))%Q) = true
  /\ Z.abs (y * 2 ^ 13 - c) <= 2 ^ 12
  /\ (Z.abs (y * 2 ^ 13 - c) = 2 ^ 12 -> Z.even y = true).
Proof.
  intros Hu He. cbv zeta.
  destruct (uint32_fields u32 Hu) as ((Hs & _ & Hm & _) & _).
  split; [|split].
  - rewrite (binary32_value_finite_fields u32 Hu) by lia.
    do 3 f_equal. lia.
  - rewrite (float32_to_float16_normal_range u32 Hu He).
    rewrite rne_increment_implicit_bit.
    set (s := u32 / 2 ^ 31) in *. set (e := (u32 / 2 ^ 23) mod 2 ^ 8) in *.
    set (m := u32 mod 2 ^ 23) in *.
    assert (Hq : (2 ^ 23 + m) / 2 ^ 13 = 2 ^ 10 + m / 2 ^ 13).
    { change (2 ^ 23) with (2 ^ 10 * 2 ^ 13). rewrite Z.div_add_l by lia. reflexivity. }
    rewrite Hq.
    set (y := 2 ^ 10 + m / 2 ^ 13 + Z.b2z (rne_increment m 12)).
    replace ((e - 112) * 2 ^ 10 + m / 2 ^ 13 + Z.b2z (rne_increment m 12))
      with ((e - 112) * 2 ^ 10 + (y - 2 ^ 10)) by (unfold y; lia).
    assert (Hy : 0 <= y < 2 ^ Z.of_nat 12).
    { assert (0 <= m / 2 ^ 13 < 2 ^ 10).
      { split; [apply Z.div_pos; lia|].
        apply Z.div_lt_upper_bound; [lia|]. change (2 ^ 13 * 2 ^ 10) with (2 ^ 23). lia. }
      change (2 ^ Z.of_nat 12) with 4096. change (2 ^ 10) with 1024 in *.
      unfold y. destruct (rne_increment m 12); cbn [Z.b2z]; lia. }
    assert (Hy' : 2 ^ 10 <= y <= 2 ^ 11).
    { assert (0 <= m / 2 ^ 13 < 2 ^ 10).
      { split; [apply Z.div_pos; lia|].
        apply Z.div_lt_upper_bound; [lia|]. change (2 ^ 13 * 2 ^ 10) with (2 ^ 23). lia. }
      change (2 ^ 11) with 2048. change (2 ^ 10) with 1024 in *.
      unfold y. destruct (rne_increment m 12); cbn [Z.b2z]; lia. }
    assert (Hs' : 0 <= s < 2 ^ Z.of_nat 1) by (change (2 ^ Z.of_nat 1) with 2; lia).
    assert (He' : 0 <= e - 112 < 2 ^ Z.of_nat 5) by (change (2 ^ Z.of_nat 5) with 32; lia).
    pose proof (forall_bits_range 1
      (fun s => forall_bits 5 0 (fun he => forall_bits 12 0 (fun y =>
         if (he =? 0) || (he =? 31) || (y <? 2 ^ 10) || (2 ^ 11 <? y) then true
         else same_value (binary16_value (s * 2 ^ 15 + (he * 2 ^ 10 + (y - 2 ^ 10))))
                (if (he =? 30) && (y =? 2 ^ 11) then Infinite (negb (s =? 0))
                 else Finite (negb (s =? 0)) (inject_Z y * 2 ^ (he - 25))%Q))))) as Hall.
    specialize (Hall ltac:(vm_cast_no_check (eq_refl true)) _ Hs').
    apply (fun H => forall_bits_range 5 _ H _ He') in Hall.
    apply (fun H => forall_bits_range 12 _ H _ Hy) in Hall. cbv beta in Hall.
    destruct (Z.eqb_spec (e - 112) 0) as [|_]; [lia|].
    destruct (Z.eqb_spec (e - 112) 31) as [|_]; [lia|].
    destruct (Z.ltb_spec y (2 ^ 10)) as [|_]; [lia|].
    destruct (Z.ltb_spec (2 ^ 11) y) as [|_]; [lia|].
    exact Hall.
  - exact (rne_increment_nearest (2 ^ 23 + u32 mod 2 ^ 23) 12 ltac:(lia)).
Qed.

Lemma float32_to_float16_normal_correctly_rounded_witness :
  is_uint32 0x40490fdb
  /\ same_value (binary16_value (float32_to_float16 0x40490fdb))
       (Finite false (inject_Z 1608 * 2 ^ (16 - 25))%Q) = true.
Proof.
  assert (H : is_uint32 0x40490fdb) by (unfold is_uint32; simpl; lia).
  assert (He : 113 <= (0x40490fdb / 2 ^ 23) mod 2 ^ 8 <= 142)
    by (vm_compute; split; discriminate).
  split; [exact H|].
  exact (proj1 (proj2 (float32_to_float16_normal_correctly_rounded 0x40490fdb H He))).
Defined.

(** X7: on a finite input whose exponent field is 102 to 112
    (magnitude from [2^-25] up to, not including, [2^-14]), the result
    reads as the input's 24-bit significand [c] rounded to a multiple
    [y] of [2^-24], to nearest with ties to even; [y] can reach 1024,
    the smallest normal half. *)
Theorem float32_to_float16_subnormal_correctly_rounded (u32 : Z) :
  is_uint32 u32 ->
  102 <= (u32 / 2 ^ 23) mod 2 ^ 8 <= 112 ->
  let negative := negb (u32 / 2 ^ 31 =? 0) in
  let e := (u32 / 2 ^ 23) mod 2 ^ 8 in
  let k := 125 - e in
  let c := 2 ^ 23 + u32 mod 2 ^ 23 in
  let y := c / 2 ^ (k + 1) + Z.b2z (rne_increment c k) in
  binary32_value u32 = Finite negative (inject_Z c * 2 ^ (e - 150))%Q
  /\ same_value (binary16_value (float32_to_float16 u32))
       (Finite negative (inject_Z y * 2 ^ (-24))%Q) = true
  /\ Z.abs (y * 2 ^ (k + 1) - c) <= 2 ^ k
  /\ (Z.abs (y * 2 ^ (k + 1) - c) = 2 ^ k -> Z.even y = true).
Proof.
  intros Hu He. cbv zeta.
  destruct (uint32_fields u32 Hu) as ((Hs & _ & Hm & _) & _).
  split; [|split].
  - apply (binary32_value_finite_fields u32 Hu). lia.
  - destruct (float32_to_float16_subnormal_range u32 Hu He) as [Hf Hy].
    cbv zeta in Hf, Hy.
    replace (125 - (u32 / 2 ^ 23) mod 2 ^ 8 + 1) with (126 - (u32 / 2 ^ 23) mod 2 ^ 8) by lia.
    rewrite Hf.
    set (y := (2 ^ 23 + u32 mod 2 ^ 23) / 2 ^ (126 - (u32 / 2 ^ 23) mod 2 ^ 8)
              + Z.b2z (rne_increment (2 ^ 23 + u32 mod 2 ^ 23)
                         (125 - (u32 / 2 ^ 23) mod 2 ^ 8))) in *.
    set (s := u32 / 2 ^ 31) in *.
    assert (Hs' : 0 <= s < 2 ^ Z.of_nat 1) by (change (2 ^ Z.of_nat 1) with 2; lia).
    assert (Hy' : 0 <= y < 2 ^ Z.of_nat 11)
      by (change (2 ^ Z.of_nat 11) with 2048; change (2 ^ 10) with 1024 in Hy; lia).
    pose proof (forall_bits_range 1
      (fun s => forall_bits 11 0 (fun y =>
         (2 ^ 10 <? y)
         || same_value (binary16_value (s * 2 ^ 15 + y))
              (Finite (negb (s =? 0)) (inject_Z y * 2 ^ (-24))%Q)))) as Hall.
    specialize (Hall ltac:(vm_cast_no_check (eq_refl true)) _ Hs').
    apply (fun H => forall_bits_range 11 _ H _ Hy') in Hall. cbv beta in Hall.
    destruct (Z.ltb_spec (2 ^ 10) y) as [|_]; [lia|].
    exact Hall.
  - exact (rne_increment_nearest (2 ^ 23 + u32 mod 2 ^ 23)
             (125 - (u32 / 2 ^ 23) mod 2 ^ 8) ltac:(lia)).
Qed.

Lemma float32_to_float16_subnormal_correctly_rounded_witness :
  is_uint32 0x33000001
  /\ same_value (binary16_value (float32_to_float16 0x33000001))
       (Finite false (inject_Z 1 * 2 ^ (-24))%Q) = true.
Proof.
  assert (H : is_uint32 0x33000001) by (unfold is_uint32; simpl; lia).
  assert (He : 102 <= (0x33000001 / 2 ^ 23) mod 2 ^ 8 <= 112)
    by (vm_compute; split; discriminate).
  split; [exact H|].
  exact (proj1 (proj2 (float32_to_float16_subnormal_correctly_rounded 0x33000001 H He))).
Defined.

(** X5: every input whose exponent field is at most 101 (both zeros,
    every binary32 subnormal, every normal below [2^-25]) narrows to
    the zero of its sign; its magnitude is less than half of the
    smallest half subnormal [2^-24]. *)
Theorem float32_to_float16_underflows_to_zero (u32 : Z) :
  is_uint32 u32 ->
  (u32 / 2 ^ 23) mod 2 ^ 8 <= 101 ->
  let negative := negb (u32 / 2 ^ 31 =? 0) in
  float32_to_float16 u32 = (if negative then 0x8000 else 0)
  /\ binary16_value (float32_to_float16 u32)
     = Finite negative (inject_Z 0 * 2 ^ (-24))%Q
  /\ exists magnitude,
       binary32_value u32 = Finite negative magnitude
       /\ (magnitude < 2 ^ (-25))%Q.
Proof.
  intros Hu He. cbv zeta.
  destruct (uint32_fields u32 Hu) as ((Hs & He0 & Hm & _) & (_ & _ & Hcoef) & (Hsign & Hexp)).
  rewrite (float32_to_float16_tiny u32 Hu He).
  assert (Hc : u32 / 2 ^ 31 = 0 \/ u32 / 2 ^ 31 = 1) by lia.
  split; [|split].
  - destruct Hc as [-> | ->]; reflexivity.
  - destruct Hc as [-> | ->]; reflexivity.
  - destruct (binary32_value_ulps u32) as (mag & Hval & Hmag).
    { rewrite Hexp. lia. }
    exists mag. rewrite Hval, Hsign. split; [reflexivity|].
    rewrite Hmag.
    apply Qlt_le_trans with (inject_Z (2 ^ 124) * 2 ^ (-149))%Q;
      [|vm_compute; discriminate].
    apply Qmult_lt_compat_r; [vm_compute; reflexivity|].
    rewrite <- Zlt_Qlt. unfold binary32_ulps. cbv zeta. rewrite Hexp, Hcoef.
    set (e := (u32 / 2 ^ 23) mod 2 ^ 8) in *. set (m := u32 mod 2 ^ 23) in *.
    destruct (Z.eqb_spec e 0) as [_|Hnz].
    + apply Z.lt_trans with (2 ^ 23); [lia | reflexivity].
    + assert (Hp : 0 < 2 ^ (e - 1) <= 2 ^ 100).
      { split; [apply Z.pow_pos_nonneg; lia | apply Z.pow_le_mono_r; lia]. }
      change (2 ^ 124) with (2 ^ 24 * 2 ^ 100).
      change (2 ^ 23) with 8388608 in *. change (2 ^ 24) with 16777216.
      nia.
Qed.

Lemma float32_to_float16_underflows_to_zero_witness :
  is_uint32 0x807fffff /\ float32_to_float16 0x807fffff = 0x8000.
Proof.
  assert (H : is_uint32 0x807fffff) by (unfold is_uint32; simpl; lia).
  assert (He : (0x807fffff / 2 ^ 23) mod 2 ^ 8 <= 101) by (vm_compute; discriminate).
  split; [exact H|].
  exact (proj1 (float32_to_float16_underflows_to_zero 0x807fffff H He)).
Defined.

(** X4: an input with exponent field 255 narrows to a pattern with
    the same sign and exponent field [0x1f]; its fraction is the top
    ten bits of the input's fraction, with bit 9 forced when the input
    is a NaN.  So an infinity gives the infinity of its sign and a NaN
    gives a NaN. *)
Theorem float32_to_float16_infinity_nan (u32 : Z) :
  is_uint32 u32 ->
  (u32 / 2 ^ 23) mod 2 ^ 8 = 255 ->
  let h := float32_to_float16 u32 in
  let m := u32 mod 2 ^ 23 in
  sign_ h = u32 / 2 ^ 31
  /\ exp_ h = 0x1f
  /\ frac_ h = Z.lor (if m =? 0 then 0 else 0x200) (m / 2 ^ 13)
  /\ binary32_value u32
     = (if m =? 0 then Infinite (negb (u32 / 2 ^ 31 =? 0)) else NaN)
  /\ binary16_value h = binary32_value u32.
Proof.
  intros Hu He. cbv zeta.
  destruct (uint32_fields u32 Hu) as ((Hs & _ & Hm & _) & (_ & _ & Hcoef) & (Hsign & Hexp)).
  assert (Hv32 : binary32_value u32
                 = if u32 mod 2 ^ 23 =? 0 then Infinite (negb (u32 / 2 ^ 31 =? 0)) else NaN).
  { unfold binary32_value. cbv zeta. rewrite Hsign, Hexp, Hcoef, He. reflexivity. }
  rewrite Hv32, (float32_to_float16_special u32 Hu He). cbv zeta.
  set (s := u32 / 2 ^ 31) in *. set (m := u32 mod 2 ^ 23) in *.
  assert (Ht : 0 <= m / 2 ^ 13 < 2 ^ Z.of_nat 10).
  { split; [apply Z.div_pos; lia|].
    apply Z.div_lt_upper_bound; [lia|]. change (2 ^ 13 * 2 ^ Z.of_nat 10) with (2 ^ 23). lia. }
  assert (Hs' : 0 <= s < 2 ^ Z.of_nat 1) by (change (2 ^ Z.of_nat 1) with 2; lia).
  pose proof (forall_bits_range 1
    (fun s => forall_bits 10 0 (fun t =>
       let inf := s * 2 ^ 15 + 0x7c00 + Z.lor 0 t in
       let nan := s * 2 ^ 15 + 0x7c00 + Z.lor 0x200 t in
       (sign_ inf =? s) && (exp_ inf =? 0x1f) && (frac_ inf =? Z.lor 0 t)
       && (sign_ nan =? s) && (exp_ nan =? 0x1f) && (frac_ nan =? Z.lor 0x200 t)
       && same_value (binary16_value nan) NaN
       && (negb (t =? 0)
           || same_value (binary16_value inf) (Infinite (negb (s =? 0))))))) as Hall.
  specialize (Hall ltac:(vm_cast_no_check (eq_refl true)) _ Hs').
  apply (fun H => forall_bits_range 10 _ H _ Ht) in Hall. cbv beta zeta in Hall.
  repeat (apply andb_prop in Hall; destruct Hall as [Hall ?]).
  repeat match goal with H : (_ =? _) = true |- _ => apply Z.eqb_eq in H end.
  destruct (Z.eqb_spec m 0) as [Hm0|Hm0].
  - repeat split; try assumption.
    assert (Ht0 : m / 2 ^ 13 = 0) by (rewrite Hm0; reflexivity).
    rewrite Ht0 in *. cbn [Z.eqb negb orb] in *.
    destruct (binary16_value (s * 2 ^ 15 + 31744 + Z.lor 0 0)) as [| b |];
      try discriminate.
    cbn in H. apply eqb_prop in H. congruence.
  - repeat split; try assumption.
    destruct (binary16_value (s * 2 ^ 15 + 31744 + Z.lor 512 (m / 2 ^ 13)));
      try discriminate. reflexivity.
Qed.

Lemma float32_to_float16_infinity_nan_witness :
  is_uint32 0xff800001 /\ frac_ (float32_to_float16 0xff800001) = 0x200.
Proof.
  assert (H : is_uint32 0xff800001) by (unfold is_uint32; simpl; lia).
  assert (He : (0xff800001 / 2 ^ 23) mod 2 ^ 8 = 255) by reflexivity.
  split; [exact H|].
  exact (proj1 (proj2 (proj2 (float32_to_float16_infinity_nan 0xff800001 H He)))).
Defined.

(** ** Sign and magnitude of the narrowed pattern *)

Lemma lxor_pow2 (a k : Z) :
  0 <= k -> Z.lxor a (2 ^ k) = if Z.testbit a k then a - 2 ^ k else a + 2 ^ k.
Proof.
  intros Hk.
  assert (Hclear : forall b, Z.testbit b k = false -> Z.lxor b (2 ^ k) = b + 2 ^ k).
  { intros b Hb. symmetry. apply Z.add_nocarry_lxor.
    rewrite land_pow2, Hb by lia. reflexivity. }
  destruct (Z.testbit a k) eqn:Ha; [|apply Hclear; exact Ha].
  assert (Hb : Z.testbit (Z.lxor a (2 ^ k)) k = false)
    by (rewrite Z.lxor_spec, Ha, Z.pow2_bits_true by lia; reflexivity).
  apply Hclear in Hb.
  rewrite Z.lxor_assoc, Z.lxor_nilpotent, Z.lxor_0_r in Hb. lia.
Qed.

Lemma testbit_as_odd (a k : Z) : 0 <= k -> Z.testbit a k = Z.odd (a / 2 ^ k).
Proof. intros Hk. rewrite Z.testbit_odd, Z.shiftr_div_pow2 by lia. reflexivity. Qed.

(** The magnitude part of the result depends on the exponent field and
    the fraction only, stays within fifteen bits, and for a finite
    input stays at or below the infinity pattern. *)
Lemma float32_to_float16_magnitude (u : Z) :
  is_uint32 u ->
  (u / 2 ^ 23) mod 2 ^ 8 = 255 \/ (u / 2 ^ 23) mod 2 ^ 8 <= 143 ->
  exists mag,
    0 <= mag < 2 ^ 15
    /\ ((u / 2 ^ 23) mod 2 ^ 8 <> 255 -> mag <= 0x7c00)
    /\ forall u', is_uint32 u' ->
         (u' / 2 ^ 23) mod 2 ^ 8 = (u / 2 ^ 23) mod 2 ^ 8 ->
         u' mod 2 ^ 23 = u mod 2 ^ 23 ->
         float32_to_float16 u' = u' / 2 ^ 31 * 2 ^ 15 + mag.
Proof.
  intros Hu Hrange.
  destruct (uint32_fields u Hu) as ((Hs & He & Hm & _) & _).
  set (e := (u / 2 ^ 23) mod 2 ^ 8) in *. set (m := u mod 2 ^ 23) in *.
  assert (Ht : 0 <= m / 2 ^ 13 < 2 ^ 10).
  { split; [apply Z.div_pos; lia|].
    apply Z.div_lt_upper_bound; [lia|]. change (2 ^ 13 * 2 ^ 10) with (2 ^ 23). lia. }
  change (2 ^ 15) with 32768. change (2 ^ 10) with 1024 in *.
  destruct (Z.eq_dec e 255) as [E255|NE255].
  { exists (0x7c00 + Z.lor (if m =? 0 then 0 else 0x200) (m / 2 ^ 13)).
    assert (Hlor : 0 <= Z.lor (if m =? 0 then 0 else 0x200) (m / 2 ^ 13) < 1024).
    { pose proof (forall_bits_range 10
        (fun t => (0 <=? Z.lor 0 t) && (Z.lor 0 t <? 1024)
                  && (0 <=? Z.lor 0x200 t) && (Z.lor 0x200 t <? 1024))) as Hall.
      specialize (Hall ltac:(vm_cast_no_check (eq_refl true)) (m / 2 ^ 13) Ht).
      cbv beta in Hall.
      repeat (apply andb_prop in Hall; destruct Hall as [Hall ?]).
      destruct (m =? 0); lia. }
    split; [lia|]. split; [intros; contradiction|].
    intros u' Hu' He' Hm'. rewrite (float32_to_float16_special u' Hu') by congruence.
    cbv zeta. rewrite Hm'. change (2 ^ 15) with 32768. lia. }
  destruct (Z_le_gt_dec e 101) as [Etiny|Egt].
  { exists 0. split; [lia|]. split; [lia|].
    intros u' Hu' He' Hm'. rewrite (float32_to_float16_tiny u' Hu') by lia.
    change (2 ^ 15) with 32768. lia. }
  destruct (Z_le_gt_dec e 112) as [Esub|Enorm].
  { pose proof (float32_to_float16_subnormal_range u Hu ltac:(fold e; lia)) as [_ Hy].
    cbv zeta in Hy. fold e m in Hy. change (2 ^ 10) with 1024 in Hy.
    eexists. split; [|split]; [| |intros u' Hu' He' Hm'].
    3:{ destruct (float32_to_float16_subnormal_range u' Hu' ltac:(lia)) as [Hf _].
        cbv zeta in Hf. rewrite He', Hm' in Hf. fold e m in Hf. exact Hf. }
    - change (2 ^ 15) with 32768. lia.
    - lia. }
  destruct (Z.eq_dec e 143) as [E143|NE143].
  { exists 0x7c00. split; [lia|]. split; [lia|].
    intros u' Hu' He' Hm'. apply (float32_to_float16_exponent_143 u' Hu'). lia. }
  assert (Hinc : 0 <= Z.b2z (rne_increment m 12) <= 1)
    by (destruct (rne_increment m 12); cbn; lia).
  exists ((e - 112) * 2 ^ 10 + m / 2 ^ 13 + Z.b2z (rne_increment m 12)).
  change (2 ^ 10) with 1024.
  split; [lia|]. split; [lia|].
  intros u' Hu' He' Hm'.
  rewrite (float32_to_float16_normal_range u' Hu') by lia. cbv zeta.
  rewrite He', Hm'. reflexivity.
Qed.

(** X8: for every input that is an infinity, a NaN, or finite with
    exponent field at most 143 (magnitude below [2^17]), narrowing
    commutes with negation: flipping bit 31 of the input flips bit 15
    of the result and nothing else.  The result is the sign times
    [2^15] plus the result for the magnitude alone, and a finite input
    never gives a pattern above the infinity pattern. *)
Theorem of_float_commutes_with_neg (u32 : Z) :
  is_uint32 u32 ->
  (u32 / 2 ^ 23) mod 2 ^ 8 = 255 \/ (u32 / 2 ^ 23) mod 2 ^ 8 <= 143 ->
  of_float (Z.lxor u32 0x80000000) = neg (of_float u32)
  /\ float32_to_float16 u32
     = u32 / 2 ^ 31 * 2 ^ 15 + float32_to_float16 (u32 mod 2 ^ 31)
  /\ 0 <= float32_to_float16 (u32 mod 2 ^ 31) < 2 ^ 15
  /\ ((u32 / 2 ^ 23) mod 2 ^ 8 <> 255 ->
      float32_to_float16 (u32 mod 2 ^ 31) <= 0x7c00).
Proof.
  intros Hu Hrange.
  destruct (float32_to_float16_magnitude u32 Hu Hrange) as (mag & Hmag & Hfin & Hall).
  destruct (uint32_fields u32 Hu) as ((Hs & He & Hm & Hsum) & _).
  set (s := u32 / 2 ^ 31) in *. set (e := (u32 / 2 ^ 23) mod 2 ^ 8) in *.
  set (m := u32 mod 2 ^ 23) in *.
  assert (Hself : float32_to_float16 u32 = s * 2 ^ 15 + mag)
    by (apply Hall; [exact Hu | reflexivity | reflexivity]).
  (* the magnitude alone *)
  destruct (uint32_of_fields 0 e m ltac:(lia) He Hm) as (Hu0 & Hs0 & He0 & Hm0).
  cbv zeta in Hu0, Hs0, He0, Hm0.
  assert (Hmod : u32 mod 2 ^ 31 = 0 * 2 ^ 31 + e * 2 ^ 23 + m).
  { symmetry. apply (Z.mod_unique _ _ s); [|lia].
    left. change (2 ^ 31) with 2147483648. change (2 ^ 23) with 8388608 in *. lia. }
  assert (Hmagn : float32_to_float16 (u32 mod 2 ^ 31) = mag).
  { rewrite Hmod, (Hall _ Hu0 He0 Hm0), Hs0. lia. }
  (* the other sign *)
  destruct (uint32_of_fields (1 - s) e m ltac:(lia) He Hm) as (Hu1 & Hs1 & He1 & Hm1).
  cbv zeta in Hu1, Hs1, He1, Hm1.
  assert (Hflip : Z.lxor u32 0x80000000 = (1 - s) * 2 ^ 31 + e * 2 ^ 23 + m).
  { change 0x80000000 with (2 ^ 31). rewrite lxor_pow2, testbit_as_odd by lia.
    fold s. assert (Hc : s = 0 \/ s = 1) by lia.
    destruct Hc as [Hc | Hc]; rewrite Hc in *; cbn [Z.odd]; lia. }
  split; [|split; [|split]].
  - unfold of_float, neg, of_bits. cbn [data_]. f_equal.
    rewrite neg_expression, Hflip, (Hall _ Hu1 He1 Hm1), Hs1, Hself.
    rewrite lxor_0x8000_uint16
      by (unfold is_uint16; change (2 ^ 16) with 65536; change (2 ^ 15) with 32768 in *; lia).
    change 0x8000 with (2 ^ 15). rewrite lxor_pow2, testbit_as_odd by lia.
    rewrite Z.div_add_l, (Z.div_small mag) by lia. rewrite Z.add_0_r.
    assert (Hc : s = 0 \/ s = 1) by lia.
    destruct Hc as [Hc | Hc]; rewrite Hc; cbn [Z.odd]; lia.
  - rewrite Hmagn. exact Hself.
  - rewrite Hmagn. exact Hmag.
  - rewrite Hmagn. exact Hfin.
Qed.

Lemma of_float_commutes_with_neg_witness :
  is_uint32 0x40490fdb /\ of_float 0xc0490fdb = neg (of_float 0x40490fdb).
Proof.
  assert (H : is_uint32 0x40490fdb) by (unfold is_uint32; simpl; lia).
  assert (He : (0x40490fdb / 2 ^ 23) mod 2 ^ 8 = 255
               \/ (0x40490fdb / 2 ^ 23) mod 2 ^ 8 <= 143)
    by (right; vm_compute; discriminate).
  split; [exact H|].
  exact (proj1 (of_float_commutes_with_neg 0x40490fdb H He)).
Defined.

(** X9: where rounding starts to overflow.  Among the non-negative
    inputs below [2^17] (patterns below [0x48000000]), the ones that
    narrow to [+infinity] are exactly those from [65520.0f]
    ([0x477ff000]) upwards; everything below gives a finite pattern. *)
Theorem float32_to_float16_overflow_threshold (u32 : Z) :
  0 <= u32 < 0x48000000 ->
  (float32_to_float16 u32 = data_ fp16_infinity <-> 0x477ff000 <= u32)
  /\ (u32 < 0x477ff000 -> float32_to_float16 u32 <= data_ fp16_max).
Proof.
  intros Hrange.
  assert (Hu : is_uint32 u32) by (unfold is_uint32; change (2 ^ 32) with 4294967296; lia).
  destruct (uint32_fields u32 Hu) as ((Hs & He & Hm & Hsum) & _).
  set (s := u32 / 2 ^ 31) in *. set (e := (u32 / 2 ^ 23) mod 2 ^ 8) in *.
  set (m := u32 mod 2 ^ 23) in *.
  assert (Hs0 : s = 0)
    by (change (2 ^ 31) with 2147483648 in Hsum; change (2 ^ 23) with 8388608 in *; lia).
  assert (He143 : e <= 143)
    by (change (2 ^ 31) with 2147483648 in Hsum; change (2 ^ 23) with 8388608 in *; lia).
  assert (Hsum' : u32 = e * 8388608 + m)
    by (change (2 ^ 31) with 2147483648 in Hsum; change (2 ^ 23) with 8388608 in *; lia).
  assert (Hm' : 0 <= m < 8388608) by (change (2 ^ 23) with 8388608 in Hm; lia).
  clear Hsum Hm.
  cbn [data_ fp16_infinity fp16_max of_bits].
  destruct (Z.eq_dec e 143) as [E143|NE143].
  { rewrite (float32_to_float16_exponent_143 u32 Hu E143). fold s. rewrite Hs0.
    split; [split; [lia | reflexivity] | lia]. }
  destruct (Z_le_gt_dec e 101) as [Etiny|Egt].
  { rewrite (float32_to_float16_tiny u32 Hu Etiny). fold s. rewrite Hs0.
    split; [split; [discriminate | lia] | intros _; discriminate]. }
  destruct (Z_le_gt_dec e 112) as [Esub|Enorm].
  { destruct (float32_to_float16_subnormal_range u32 Hu ltac:(fold e; lia)) as [Hf Hy].
    cbv zeta in Hf, Hy. rewrite Hf. fold s. rewrite Hs0.
    change (2 ^ 10) with 1024 in Hy.
    split; [split; lia | lia]. }
  rewrite (float32_to_float16_normal_range u32 Hu ltac:(fold e; lia)). cbv zeta.
  fold s e m. rewrite Hs0.
  pose proof (Z.div_mod m (2 ^ 13) ltac:(lia)) as Hdm.
  pose proof (Z.mod_pos_bound m (2 ^ 13) ltac:(lia)) as Hr.
  unfold rne_increment. cbv zeta. change (12 + 1) with 13.
  set (t := m / 2 ^ 13) in *. set (r := m mod 2 ^ 13) in *.
  change (2 ^ 13) with 8192 in *. change (2 ^ 12) with 4096.
  change (2 ^ 10) with 1024. change (2 ^ 15) with 32768.
  assert (Ht : 0 <= t <= 1023) by lia.
  destruct (Z.eq_dec t 1023) as [T|T].
  - rewrite T in *. change (Z.odd 1023) with true. rewrite andb_true_r.
    destruct (Z.ltb_spec 4096 r); destruct (Z.eqb_spec r 4096);
      cbn [orb Z.b2z]; (split; [split; lia | lia]).
  - assert (Hinc : 0 <= Z.b2z ((4096 <? r) || (r =? 4096) && Z.odd t) <= 1)
      by (destruct ((4096 <? r) || (r =? 4096) && Z.odd t); cbn; lia).
    split; [split; lia | lia].
Qed.

Lemma float32_to_float16_overflow_threshold_witness :
  0 <= 0x477fefff < 0x48000000 /\ float32_to_float16 0x477fefff <= data_ fp16_max.
Proof.
  assert (H : 0 <= 0x477fefff < 0x48000000) by lia.
  split; [exact H|].
  exact (proj2 (float32_to_float16_overflow_threshold 0x477fefff H) ltac:(lia)).
Defined.

(** X10: widening undoes narrowing on every input the half format
    holds exactly as a normal number: exponent field 113 to 142 and the
    low 13 fraction bits zero. *)
Theorem float16_to_float32_after_float32_to_float16 (u32 : Z) :
  is_uint32 u32 ->
  113 <= (u32 / 2 ^ 23) mod 2 ^ 8 <= 142 ->
  u32 mod 2 ^ 13 = 0 ->
  float16_to_float32 (float32_to_float16 u32) = Some u32.
Proof.
  intros Hu He Hlow.
  destruct (uint32_fields u32 Hu) as ((Hs & _ & Hm & Hsum) & _).
  rewrite (float32_to_float16_normal_range u32 Hu He). cbv zeta.
  set (s := u32 / 2 ^ 31) in *. set (e := (u32 / 2 ^ 23) mod 2 ^ 8) in *.
  set (m := u32 mod 2 ^ 23) in *.
  assert (Hmlow : m mod 2 ^ 13 = 0).
  { unfold m. rewrite Z.mod_mod_divide; [exact Hlow|].
    exists (2 ^ 10). reflexivity. }
  assert (Hinc : rne_increment m 12 = false).
  { unfold rne_increment. cbv zeta. change (12 + 1) with 13. rewrite Hmlow. reflexivity. }
  rewrite Hinc. cbn [Z.b2z]. rewrite Z.add_0_r.
  pose proof (Z.div_mod m (2 ^ 13) ltac:(lia)) as Hdm. rewrite Hmlow, Z.add_0_r in Hdm.
  assert (Ht : 0 <= m / 2 ^ 13 < 2 ^ Z.of_nat 10).
  { split; [apply Z.div_pos; lia|].
    apply Z.div_lt_upper_bound; [lia|]. change (2 ^ 13 * 2 ^ Z.of_nat 10) with (2 ^ 23). lia. }
  assert (Hs' : 0 <= s < 2 ^ Z.of_nat 1) by (change (2 ^ Z.of_nat 1) with 2; lia).
  assert (He' : 0 <= e - 112 < 2 ^ Z.of_nat 5) by (change (2 ^ Z.of_nat 5) with 32; lia).
  pose proof (forall_bits_range 1
    (fun s => forall_bits 5 0 (fun he => forall_bits 10 0 (fun t =>
       (he =? 0) || (he =? 31)
       || match float16_to_float32 (s * 2 ^ 15 + (he * 2 ^ 10 + t)) with
          | Some r => r =? s * 2 ^ 31 + (he + 112) * 2 ^ 23 + 2 ^ 13 * t
          | None => false
          end)))) as Hall.
  specialize (Hall ltac:(vm_cast_no_check (eq_refl true)) _ Hs').
  apply (fun H => forall_bits_range 5 _ H _ He') in Hall.
  apply (fun H => forall_bits_range 10 _ H _ Ht) in Hall. cbv beta in Hall.
  destruct (Z.eqb_spec (e - 112) 0) as [|_]; [lia|].
  destruct (Z.eqb_spec (e - 112) 31) as [|_]; [lia|].
  cbn [orb] in Hall.
  destruct (float16_to_float32 (s * 2 ^ 15 + ((e - 112) * 2 ^ 10 + m / 2 ^ 13)))
    as [r|]; [|discriminate].
  apply Z.eqb_eq in Hall. f_equal. lia.
Qed.

Lemma float16_to_float32_after_float32_to_float16_witness :
  is_uint32 0xc2280000
  /\ float16_to_float32 (float32_to_float16 0xc2280000) = Some 0xc2280000.
Proof.
  assert (H : is_uint32 0xc2280000) by (unfold is_uint32; simpl; lia).
  assert (He : 113 <= (0xc2280000 / 2 ^ 23) mod 2 ^ 8 <= 142)
    by (vm_compute; split; discriminate).
  assert (Hl : 0xc2280000 mod 2 ^ 13 = 0) by reflexivity.
  split; [exact H|].
  exact (float16_to_float32_after_float32_to_float16 0xc2280000 H He Hl).
Defined.

(** ** The widening loop is never entered *)

(** Widening never leaves the 32-bit range. *)
Lemma float16_to_float32_uint32 (h : Z) :
  is_uint16 h -> exists f32, float16_to_float32 h = Some f32 /\ is_uint32 f32.
Proof.
  intros Hh.
  pose proof (forall_uint16
    (fun h => match float16_to_float32 h with
              | Some r => (0 <=? r) && (r <? 2 ^ 32)
              | None => false
              end) ltac:(vm_cast_no_check (eq_refl true)) h Hh) as Hret.
  cbv beta in Hret.
  destruct (float16_to_float32 h) as [r|]; [|discriminate].
  apply andb_prop in Hret as [H0 H1].
  exists r. split; [reflexivity|].
  split; [apply Z.leb_le; exact H0 | apply Z.ltb_lt; exact H1].
Qed.

(** X11: [float16_to_float32] returns a 32-bit pattern for every
    16-bit input, and the same one whatever bound is put on the number
    of loop iterations, zero included: the loop condition is false on
    entry for every input. *)
Theorem float16_to_float32_loop_never_runs (h : Z) (fuel : nat) :
  is_uint16 h ->
  exists f32,
    float16_to_float32 h = Some f32
    /\ float16_to_float32_fuel fuel h = Some f32
    /\ float16_to_float32_fuel 0 h = Some f32
    /\ is_uint32 f32.
Proof.
  intros Hh.
  assert (Hany : forall n, float16_to_float32_fuel n h = float16_to_float32_fuel 0 h).
  { intros n. unfold float16_to_float32_fuel. cbv zeta.
    rewrite !(renormalize_never_iterates h _ _ Hh). reflexivity. }
  destruct (float16_to_float32_uint32 h Hh) as (r & Hr & Hrange).
  exists r. split; [exact Hr|].
  unfold float16_to_float32 in Hr. rewrite Hany in Hr.
  rewrite (Hany fuel). split; [exact Hr|]. split; [exact Hr | exact Hrange].
Qed.

Lemma float16_to_float32_loop_never_runs_witness :
  is_uint16 0x03ff
  /\ exists f32, float16_to_float32 0x03ff = Some f32
       /\ float16_to_float32_fuel 5 0x03ff = Some f32
       /\ float16_to_float32_fuel 0 0x03ff = Some f32
       /\ is_uint32 f32.
Proof.
  assert (H : is_uint16 0x03ff) by (unfold is_uint16; simpl; lia).
  split; [exact H|]. exact (float16_to_float32_loop_never_runs 0x03ff 5 H).
Defined.

(** ** Classification against the binary16 reading *)

(** X12: the five categories, on every pattern.  At least one holds;
    [is_finite] is the negation of [is_nan || is_inf]; [is_nan],
    [is_inf] and zero each exclude the four others; [is_normal] and
    subnormal hold together exactly when the exponent field is 0 and
    one of the fraction bits 7 to 9 is set. *)
Theorem classification_of_every_pattern (f : float16_t) :
  is_uint16 (data_ f) ->
  is_nan f || is_inf f || is_normal f || is_zero f || is_subnormal f = true
  /\ is_finite f = negb (is_nan f || is_inf f)
  /\ (is_nan f = true ->
      is_inf f = false /\ is_normal f = false /\ is_zero f = false
      /\ is_subnormal f = false)
  /\ (is_inf f = true ->
      is_normal f = false /\ is_zero f = false /\ is_subnormal f = false)
  /\ (is_zero f = true -> is_normal f = false /\ is_subnormal f = false)
  /\ is_normal f && is_subnormal f
     = (exp_ (data_ f) =? 0) && negb (Z.land (data_ f) 0x380 =? 0).
Proof.
  destruct f as [b]. cbn [data_]. intros Hb.
  pose proof (forall_uint16
    (fun b =>
       let f := mk_float16_t b in
       (is_nan f || is_inf f || is_normal f || is_zero f || is_subnormal f)
       && Bool.eqb (is_finite f) (negb (is_nan f || is_inf f))
       && implb (is_nan f)
            (negb (is_inf f || is_normal f || is_zero f || is_subnormal f))
       && implb (is_inf f) (negb (is_normal f || is_zero f || is_subnormal f))
       && implb (is_zero f) (negb (is_normal f || is_subnormal f))
       && Bool.eqb (is_normal f && is_subnormal f)
            ((exp_ b =? 0) && negb (Z.land b 0x380 =? 0)))
    ltac:(vm_cast_no_check (eq_refl true)) b Hb) as Hall.
  cbv beta zeta in Hall.
  repeat (apply andb_prop in Hall; destruct Hall as [Hall ?]).
  repeat match goal with H : Bool.eqb _ _ = true |- _ => apply eqb_prop in H end.
  split; [exact Hall|]. split; [assumption|].
  destruct (is_nan (mk_float16_t b)), (is_inf (mk_float16_t b)),
    (is_normal (mk_float16_t b)), (is_zero (mk_float16_t b)),
    (is_subnormal (mk_float16_t b));
    cbn in *; repeat split; try discriminate; try assumption; try reflexivity.
Qed.

Lemma classification_of_every_pattern_witness :
  is_uint16 (data_ fp16_max_subnormal)
  /\ is_normal fp16_max_subnormal && is_subnormal fp16_max_subnormal = true.
Proof.
  assert (H : is_uint16 (data_ fp16_max_subnormal)) by (unfold is_uint16; simpl; lia).
  split; [exact H|].
  exact (proj2 (proj2 (proj2 (proj2 (proj2
           (classification_of_every_pattern fp16_max_subnormal H)))))).
Defined.

(** X13: the predicates against what the pattern stands for.  When
    [is_nan] answers true the pattern is a NaN; when [is_inf] answers
    true the pattern is a NaN as well (only [0x7f80] and [0xff80]
    qualify); on the two infinities [is_inf] is false and [is_finite]
    and [is_normal] are true; [is_normal] is true on every normal
    pattern. *)
Theorem classification_against_value (f : float16_t) :
  is_uint16 (data_ f) ->
  (is_nan f = true -> binary16_value (data_ f) = NaN)
  /\ (is_inf f = true -> binary16_value (data_ f) = NaN)
  /\ (forall negative, binary16_value (data_ f) = Infinite negative ->
        is_inf f = false /\ is_finite f = true /\ is_normal f = true)
  /\ (1 <= exp_ (data_ f) <= 30 -> is_normal f = true /\ is_finite f = true).
Proof.
  destruct f as [b]. cbn [data_]. intros Hb.
  pose proof (forall_uint16
    (fun b =>
       let f := mk_float16_t b in
       implb (is_nan f || is_inf f) (same_value (binary16_value b) NaN)
       && match binary16_value b with
          | Infinite _ => negb (is_inf f) && is_finite f && is_normal f
          | _ => true
          end
       && implb ((1 <=? exp_ b) && (exp_ b <=? 30)) (is_normal f && is_finite f))
    ltac:(vm_cast_no_check (eq_refl true)) b Hb) as Hall.
  cbv beta zeta in Hall.
  apply andb_prop in Hall as [Hall Hnorm]. apply andb_prop in Hall as [Hnan Hinf].
  assert (HNaN : forall v, same_value v NaN = true -> v = NaN)
    by (intros [| |]; cbn; congruence).
  split; [|split; [|split]].
  - intros H. rewrite H in Hnan. apply HNaN. exact Hnan.
  - intros H. rewrite H, orb_true_r in Hnan. apply HNaN. exact Hnan.
  - intros negative Hv. rewrite Hv in Hinf.
    apply andb_prop in Hinf as [Hinf H3]. apply andb_prop in Hinf as [H1 H2].
    apply negb_true_iff in H1. repeat split; assumption.
  - intros [H1 H2]. apply Z.leb_le in H1, H2. rewrite H1, H2 in Hnorm.
    apply andb_prop in Hnorm. exact Hnorm.
Qed.

Lemma classification_against_value_witness :
  is_uint16 (data_ fp16_infinity_negative)
  /\ is_inf fp16_infinity_negative = false
  /\ is_finite fp16_infinity_negative = true
  /\ is_normal fp16_infinity_negative = true.
Proof.
  assert (H : is_uint16 (data_ fp16_infinity_negative)) by (unfold is_uint16; simpl; lia).
  split; [exact H|].
  exact (proj1 (proj2 (proj2 (classification_against_value fp16_infinity_negative H)))
           true eq_refl).
Defined.

(** ** Sign operations *)

(** X14: [abs] clears bit 15 and keeps the rest; it is idempotent,
    absorbs a negation, returns the operand or its negation, and its
    result is always [is_positive].  [is_negative] is the negation of
    [is_positive], and unary minus swaps the two. *)
Theorem abs_and_sign_predicates (f : float16_t) :
  is_uint16 (data_ f) ->
  data_ (abs f) = data_ f mod 2 ^ 15
  /\ abs (abs f) = abs f
  /\ abs (neg f) = abs f
  /\ abs f = (if is_negative f then neg f else f)
  /\ is_positive (abs f) = true
  /\ is_negative f = negb (is_positive f)
  /\ is_positive (neg f) = is_negative f
  /\ pos f = f.
Proof.
  destruct f as [b]. cbn [data_]. intros Hb.
  pose proof (forall_uint16
    (fun b =>
       let f := mk_float16_t b in
       (data_ (abs f) =? b mod 2 ^ 15)
       && (data_ (abs (abs f)) =? data_ (abs f))
       && (data_ (abs (neg f)) =? data_ (abs f))
       && (data_ (abs f) =? data_ (if is_negative f then neg f else f))
       && is_positive (abs f)
       && Bool.eqb (is_negative f) (negb (is_positive f))
       && Bool.eqb (is_positive (neg f)) (is_negative f))
    ltac:(vm_cast_no_check (eq_refl true)) b Hb) as Hall.
  cbv beta zeta in Hall.
  repeat (apply andb_prop in Hall; destruct Hall as [Hall ?]).
  repeat match goal with
         | H : Bool.eqb _ _ = true |- _ => apply eqb_prop in H
         | H : (_ =? _) = true |- _ => apply Z.eqb_eq in H
         end.
  assert (Hext : forall x y : float16_t, data_ x = data_ y -> x = y)
    by (intros [x] [y]; cbn; congruence).
  repeat split; try assumption; try (apply Hext; assumption).
Qed.

Lemma abs_and_sign_predicates_witness :
  is_uint16 (data_ fp16_min) /\ abs fp16_min = fp16_max.
Proof.
  assert (H : is_uint16 (data_ fp16_min)) by (unfold is_uint16; simpl; lia).
  split; [exact H|].
  exact (proj1 (proj2 (proj2 (proj2 (abs_and_sign_predicates fp16_min H))))).
Defined.

(** ** Comparisons *)

Lemma ieee_compare_same_value (a a' b b' : ieee_value) :
  same_value a a' = true -> same_value b b' = true ->
  HostFloat.ieee_compare a b = HostFloat.ieee_compare a' b'.
Proof.
  intros Ha Hb.
  destruct a as [sa ma|sa|], a' as [sa' ma'|sa'|]; try discriminate Ha;
    destruct b as [sb mb|sb|], b' as [sb' mb'|sb'|]; try discriminate Hb;
    cbn in Ha, Hb |- *;
    repeat match goal with
           | H : _ && _ = true |- _ => apply andb_prop in H; destruct H
           | H : Bool.eqb _ _ = true |- _ => apply eqb_prop in H; subst
           | H : Qeq_bool _ _ = true |- _ => apply Qeq_bool_eq in H
           end; try reflexivity.
  f_equal. unfold HostFloat.signed.
  destruct sa', sb';
    repeat match goal with H : (_ == _)%Q |- _ => rewrite H; clear H end;
    reflexivity.
Qed.

(** What the two operands of a comparison widen to. *)
Lemma to_float_value (f : float16_t) :
  is_uint16 (data_ f) -> is_subnormal f = false ->
  exists x, to_float f = Some x
            /\ same_value (binary32_value x) (binary16_value (data_ f)) = true.
Proof.
  intros Hf Hsub. destruct f as [b]. cbn [data_] in *.
  destruct (float16_to_float32_exact_unless_subnormal b Hf Hsub) as (x & Hx & Hv).
  exists x. split; assumption.
Qed.

(** X15: a comparison with a NaN operand.  When either operand is a
    NaN pattern, [<], [<=], [>], [>=] and [==] answer false and [!=]
    answers true, whatever the other operand is (a NaN included). *)
Theorem compare_with_nan (n v : float16_t) :
  is_uint16 (data_ n) -> is_uint16 (data_ v) ->
  binary16_value (data_ n) = NaN ->
  (Compare.lt n v = Some false /\ Compare.le n v = Some false
   /\ Compare.gt n v = Some false /\ Compare.ge n v = Some false
   /\ Compare.eq n v = Some false /\ Compare.ne n v = Some true)
  /\ (Compare.lt v n = Some false /\ Compare.le v n = Some false
      /\ Compare.gt v n = Some false /\ Compare.ge v n = Some false
      /\ Compare.eq v n = Some false /\ Compare.ne v n = Some true).
Proof.
  intros Hn Hv Hnan.
  assert (Hsub : is_subnormal n = false).
  { unfold is_subnormal, to_uint16. unfold binary16_value in Hnan. cbv zeta in Hnan.
    destruct (exp_ (data_ n) =? 0x1f) eqn:He.
    - apply Z.eqb_eq in He. rewrite He. reflexivity.
    - destruct (exp_ (data_ n) =? 0); discriminate Hnan. }
  destruct (to_float_value n Hn Hsub) as (x & Hx & Hxv).
  rewrite Hnan in Hxv.
  assert (Hxn : binary32_value x = NaN)
    by (destruct (binary32_value x); cbn in Hxv; congruence).
  destruct (float16_to_float32_returns (data_ v)) as (y & Hy).
  unfold Compare.lt, Compare.le, Compare.gt, Compare.ge, Compare.eq, Compare.ne,
    Compare.lift, to_float.
  unfold to_float in Hx. rewrite Hx, Hy.
  unfold HostFloat.lt, HostFloat.le, HostFloat.gt, HostFloat.ge, HostFloat.ne,
    HostFloat.eq, HostFloat.compare.
  rewrite Hxn. cbn [HostFloat.ieee_compare].
  destruct (binary32_value y); cbn; repeat split.
Qed.

Lemma compare_with_nan_witness :
  is_uint16 (data_ fp16_nan) /\ Compare.ne fp16_nan fp16_nan = Some true.
Proof.
  assert (H : is_uint16 (data_ fp16_nan)) by (unfold is_uint16; simpl; lia).
  split; [exact H|].
  destruct (compare_with_nan fp16_nan fp16_nan H H eq_refl) as [(_ & _ & _ & _ & _ & Hne) _].
  exact Hne.
Defined.

(** X16: on two operands that are not subnormal, every comparison
    operator answers what IEEE 754 says about the two binary16 values:
    the widening the operators go through loses nothing there. *)
Theorem compare_agrees_with_binary16 (f1 f2 : float16_t) :
  is_uint16 (data_ f1) -> is_uint16 (data_ f2) ->
  is_subnormal f1 = false -> is_subnormal f2 = false ->
  let c := HostFloat.ieee_compare (binary16_value (data_ f1))
                                  (binary16_value (data_ f2)) in
  Compare.lt f1 f2 = Some (match c with Some Lt => true | _ => false end)
  /\ Compare.le f1 f2 = Some (match c with Some Lt | Some Eq => true | _ => false end)
  /\ Compare.eq f1 f2 = Some (match c with Some Eq => true | _ => false end)
  /\ Compare.gt f1 f2 = Some (match c with Some Gt => true | _ => false end)
  /\ Compare.ge f1 f2 = Some (match c with Some Gt | Some Eq => true | _ => false end)
  /\ Compare.ne f1 f2 = Some (negb (match c with Some Eq => true | _ => false end)).
Proof.
  intros H1 H2 S1 S2. cbv zeta.
  destruct (to_float_value f1 H1 S1) as (x & Hx & Hxv).
  destruct (to_float_value f2 H2 S2) as (y & Hy & Hyv).
  rewrite <- (ieee_compare_same_value _ _ _ _ Hxv Hyv).
  unfold Compare.lt, Compare.le, Compare.gt, Compare.ge, Compare.eq, Compare.ne,
    Compare.lift. rewrite Hx, Hy.
  repeat split.
Qed.

Lemma compare_agrees_with_binary16_witness :
  is_uint16 (data_ fp16_one) /\ is_uint16 (data_ fp16_pi)
  /\ Compare.lt fp16_one fp16_pi = Some true.
Proof.
  assert (H1 : is_uint16 (data_ fp16_one)) by (unfold is_uint16; simpl; lia).
  assert (H2 : is_uint16 (data_ fp16_pi)) by (unfold is_uint16; simpl; lia).
  split; [exact H1|]. split; [exact H2|].
  exact (proj1 (compare_agrees_with_binary16 fp16_one fp16_pi H1 H2 eq_refl eq_refl)).
Defined.

(** X17: comparisons on subnormals.  The value of every subnormal is
    below that of [fp16_min_positive], yet the operators order it
    above: for every positive subnormal [f],
    [fp16_min_positive < f] is true and [f < fp16_min_positive] is
    false; and [f] compares equal to the normal pattern [f | 0x400]. *)
Theorem compare_subnormal (f : float16_t) :
  is_uint16 (data_ f) -> is_subnormal f = true -> is_positive f = true ->
  HostFloat.ieee_compare (binary16_value (data_ f))
                         (binary16_value (data_ fp16_min_positive)) = Some Lt
  /\ Compare.lt fp16_min_positive f = Some true
  /\ Compare.lt f fp16_min_positive = Some false
  /\ Compare.eq f (of_bits (Z.lor (data_ f) 0x400)) = Some true.
Proof.
  destruct f as [b]. cbn [data_]. intros Hb Hsub Hpos.
  pose proof (forall_uint16
    (fun b =>
       let f := mk_float16_t b in
       if is_subnormal f && is_positive f
       then match HostFloat.ieee_compare (binary16_value b)
                    (binary16_value (data_ fp16_min_positive)),
                  Compare.lt fp16_min_positive f,
                  Compare.lt f fp16_min_positive,
                  Compare.eq f (of_bits (Z.lor b 0x400)) with
            | Some Lt, Some true, Some false, Some true => true
            | _, _, _, _ => false
            end
       else true)
    ltac:(vm_cast_no_check (eq_refl true)) b Hb) as Hall.
  cbv beta zeta in Hall. rewrite Hsub, Hpos in Hall. cbn [andb implb] in Hall.
  destruct (HostFloat.ieee_compare _ _) as [[| |]|]; try discriminate Hall.
  destruct (Compare.lt fp16_min_positive _) as [[|]|]; try discriminate Hall.
  destruct (Compare.lt _ fp16_min_positive) as [[|]|]; try discriminate Hall.
  destruct (Compare.eq _ _) as [[|]|]; try discriminate Hall.
  repeat split.
Qed.

Lemma compare_subnormal_witness :
  is_uint16 (data_ fp16_min_positive_subnormal)
  /\ Compare.lt fp16_min_positive fp16_min_positive_subnormal = Some true.
Proof.
  assert (H : is_uint16 (data_ fp16_min_positive_subnormal))
    by (unfold is_uint16; simpl; lia).
  split; [exact H|].
  exact (proj1 (proj2 (compare_subnormal fp16_min_positive_subnormal H eq_refl eq_refl))).
Defined.

(** ** Narrowing keeps the order *)

(** Rounding to nearest-even at a fixed place is monotone. *)
Lemma rne_monotone (c1 c2 k : Z) :
  0 <= k -> c1 <= c2 ->
  c1 / 2 ^ (k + 1) + Z.b2z (rne_increment c1 k)
  <= c2 / 2 ^ (k + 1) + Z.b2z (rne_increment c2 k).
Proof.
  intros Hk Hle.
  assert (Hp : 0 < 2 ^ (k + 1)) by (apply Z.pow_pos_nonneg; lia).
  assert (Hp1 : 2 ^ (k + 1) = 2 * 2 ^ k)
    by (rewrite Z.pow_add_r by lia; change (2 ^ 1) with 2; lia).
  pose proof (Z.div_mod c1 (2 ^ (k + 1)) ltac:(lia)) as D1.
  pose proof (Z.div_mod c2 (2 ^ (k + 1)) ltac:(lia)) as D2.
  pose proof (Z.mod_pos_bound c1 (2 ^ (k + 1)) Hp) as M1.
  pose proof (Z.mod_pos_bound c2 (2 ^ (k + 1)) Hp) as M2.
  pose proof (Z.div_le_mono c1 c2 (2 ^ (k + 1)) Hp Hle) as Hq.
  unfold rne_increment. cbv zeta.
  set (q1 := c1 / 2 ^ (k + 1)) in *. set (q2 := c2 / 2 ^ (k + 1)) in *.
  set (r1 := c1 mod 2 ^ (k + 1)) in *. set (r2 := c2 mod 2 ^ (k + 1)) in *.
  assert (Hb : forall b : bool, 0 <= Z.b2z b <= 1) by (intros [|]; cbn; lia).
  destruct (Z.eq_dec q1 q2) as [Heq|Hne].
  - rewrite <- Heq in *. assert (Hr : r1 <= r2) by nia.
    destruct (Z.ltb_spec (2 ^ k) r1), (Z.ltb_spec (2 ^ k) r2),
      (Z.eqb_spec r1 (2 ^ k)), (Z.eqb_spec r2 (2 ^ k)), (Z.odd q1);
      cbn; lia.
  - pose proof (Hb ((2 ^ k <? r1) || (r1 =? 2 ^ k) && Z.odd q1)).
    pose proof (Hb ((2 ^ k <? r2) || (r2 =? 2 ^ k) && Z.odd q2)).
    lia.
Qed.

Lemma rne_increment_high_bits (a m : Z) :
  rne_increment (a * 2 ^ 23 + m) 12 = rne_increment m 12.
Proof.
  unfold rne_increment. cbv zeta. change (12 + 1) with 13.
  replace (a * 2 ^ 23 + m) with (m + a * 2 ^ 10 * 2 ^ 13)
    by (change (2 ^ 23) with (2 ^ 10 * 2 ^ 13); ring).
  rewrite Z_mod_plus_full, Z.div_add by lia.
  rewrite Z.odd_add, Z.odd_mul. change (Z.odd (2 ^ 10)) with false.
  rewrite andb_false_r, xorb_false_r. reflexivity.
Qed.

(** The whole range below [2^17], non-negative inputs, in closed
    form. *)
Lemma float32_to_float16_below_0x48000000 (u : Z) :
  0 <= u < 0x48000000 ->
  let e := (u / 2 ^ 23) mod 2 ^ 8 in
  u / 2 ^ 23 = e /\ e <= 143
  /\ (e <= 101 -> float32_to_float16 u = 0)
  /\ (102 <= e <= 112 ->
      float32_to_float16 u
      = (2 ^ 23 + u mod 2 ^ 23) / 2 ^ (125 - e + 1)
        + Z.b2z (rne_increment (2 ^ 23 + u mod 2 ^ 23) (125 - e)))
  /\ (113 <= e <= 142 ->
      float32_to_float16 u
      = u / 2 ^ (12 + 1) + Z.b2z (rne_increment u 12) - 112 * 2 ^ 10)
  /\ (e = 143 -> float32_to_float16 u = 0x7c00).
Proof.
  intros Hrange. cbv zeta.
  assert (Hu : is_uint32 u) by (unfold is_uint32; change (2 ^ 32) with 4294967296; lia).
  destruct (uint32_fields u Hu) as ((Hs & He & Hm & Hsum) & _).
  assert (Hs0 : u / 2 ^ 31 = 0)
    by (change (2 ^ 31) with 2147483648 in *; change (2 ^ 23) with 8388608 in *; lia).
  rewrite Hs0 in Hsum.
  assert (Hdiv : u / 2 ^ 23 = (u / 2 ^ 23) mod 2 ^ 8).
  { symmetry. apply Z.mod_small. split; [apply Z.div_pos; lia|].
    apply Z.div_lt_upper_bound; [lia|]. change (2 ^ 23 * 2 ^ 8) with 2147483648. lia. }
  split; [exact Hdiv|].
  split; [change (2 ^ 23) with 8388608 in *; lia|].
  split; [|split; [|split]].
  - intros Ht. rewrite (float32_to_float16_tiny u Hu Ht), Hs0. reflexivity.
  - intros Hsub. destruct (float32_to_float16_subnormal_range u Hu Hsub) as [Hf _].
    cbv zeta in Hf. rewrite Hf, Hs0.
    replace (126 - (u / 2 ^ 23) mod 2 ^ 8) with (125 - (u / 2 ^ 23) mod 2 ^ 8 + 1) by lia.
    lia.
  - intros Hnorm. rewrite (float32_to_float16_normal_range u Hu Hnorm). cbv zeta.
    rewrite Hs0. change (12 + 1) with 13.
    set (e := (u / 2 ^ 23) mod 2 ^ 8) in *. set (m := u mod 2 ^ 23) in *.
    assert (Hu' : u = e * 2 ^ 23 + m) by lia.
    assert (A1 : rne_increment u 12 = rne_increment m 12).
    { transitivity (rne_increment (e * 2 ^ 23 + m) 12);
        [f_equal; exact Hu' | apply rne_increment_high_bits]. }
    assert (A2 : u / 2 ^ 13 = e * 2 ^ 10 + m / 2 ^ 13).
    { transitivity ((m + e * 2 ^ 10 * 2 ^ 13) / 2 ^ 13).
      - f_equal. change (2 ^ 23) with (2 ^ 10 * 2 ^ 13) in Hu'. lia.
      - rewrite Z.div_add by lia. lia. }
    rewrite A1, A2. lia.
  - intros H143. rewrite (float32_to_float16_exponent_143 u Hu H143), Hs0. reflexivity.
Qed.

(** X18: narrowing is monotone on the non-negative inputs below
    [2^17]: a larger pattern (a larger value) never narrows to a
    smaller half pattern. *)
Theorem float32_to_float16_monotone (u1 u2 : Z) :
  0 <= u1 -> u1 <= u2 -> u2 < 0x48000000 ->
  float32_to_float16 u1 <= float32_to_float16 u2.
Proof.
  intros H0 Hle Hhi.
  destruct (float32_to_float16_below_0x48000000 u1 ltac:(lia))
    as (D1 & T1 & Z1 & S1 & N1 & I1).
  destruct (float32_to_float16_below_0x48000000 u2 ltac:(lia))
    as (D2 & T2 & Z2 & S2 & N2 & I2).
  cbv zeta in *.
  assert (He : u1 / 2 ^ 23 <= u2 / 2 ^ 23) by (apply Z.div_le_mono; lia).
  rewrite D1, D2 in He.
  pose proof (Z.div_mod u1 (2 ^ 23) ltac:(lia)) as E1. rewrite D1 in E1.
  pose proof (Z.div_mod u2 (2 ^ 23) ltac:(lia)) as E2. rewrite D2 in E2.
  pose proof (Z.mod_pos_bound u1 (2 ^ 23) ltac:(lia)) as M1.
  pose proof (Z.mod_pos_bound u2 (2 ^ 23) ltac:(lia)) as M2.
  assert (E0 : 0 <= (u1 / 2 ^ 23) mod 2 ^ 8)
    by (apply Z.mod_pos_bound; lia).
  set (e1 := (u1 / 2 ^ 23) mod 2 ^ 8) in *. set (e2 := (u2 / 2 ^ 23) mod 2 ^ 8) in *.
  set (m1 := u1 mod 2 ^ 23) in *. set (m2 := u2 mod 2 ^ 23) in *.
  assert (Hb : forall b : bool, 0 <= Z.b2z b <= 1) by (intros [|]; cbn; lia).
  (* bounds of each path *)
  assert (Bsub : forall e m, 102 <= e <= 112 -> 0 <= m < 2 ^ 23 ->
            0 <= (2 ^ 23 + m) / 2 ^ (125 - e + 1) < 2 ^ (e - 102)).
  { intros e m He' Hm'.
    assert (Hp : 0 < 2 ^ (125 - e + 1)) by (apply Z.pow_pos_nonneg; lia).
    assert (Hsplit : 2 ^ 24 = 2 ^ (e - 102) * 2 ^ (125 - e + 1))
      by (rewrite <- Z.pow_add_r by lia; f_equal; lia).
    change (2 ^ 24) with (2 * 2 ^ 23) in Hsplit.
    split; [apply Z.div_pos; lia|].
    apply Z.div_lt_upper_bound; [lia|]. nia. }
  assert (Bnorm : forall u, 0 <= u -> 113 <= u / 2 ^ 23 <= 142 ->
            1024 <= u / 2 ^ (12 + 1) - 112 * 2 ^ 10 < 0x7c00).
  { intros u Hu0 Hue. change (12 + 1) with 13.
    pose proof (Z.div_mod u (2 ^ 23) ltac:(lia)) as Hd.
    pose proof (Z.mod_pos_bound u (2 ^ 23) ltac:(lia)) as Hmb.
    assert (113 * 2 ^ 10 <= u / 2 ^ 13).
    { apply Z.div_le_lower_bound; [lia|].
      change (2 ^ 13 * (113 * 2 ^ 10)) with (113 * 2 ^ 23).
      change (2 ^ 23) with 8388608 in *. lia. }
    assert (u / 2 ^ 13 < 143 * 2 ^ 10).
    { apply Z.div_lt_upper_bound; [lia|].
      change (2 ^ 13 * (143 * 2 ^ 10)) with (143 * 2 ^ 23).
      change (2 ^ 23) with 8388608 in *. lia. }
    change (2 ^ 10) with 1024 in *. lia. }
  destruct (Z_le_gt_dec e1 101) as [C1|C1].
  { rewrite (Z1 C1).
    destruct (Z_le_gt_dec e2 101); [rewrite Z2 by lia; lia|].
    destruct (Z_le_gt_dec e2 112).
    - rewrite S2 by lia.
      pose proof (Bsub e2 m2 ltac:(lia) M2).
      pose proof (Hb (rne_increment (2 ^ 23 + m2) (125 - e2))). lia.
    - destruct (Z.eq_dec e2 143); [rewrite I2 by lia; lia|].
      rewrite N2 by lia.
      pose proof (Bnorm u2 ltac:(lia) ltac:(rewrite D2; fold e2; lia)).
      pose proof (Hb (rne_increment u2 12)). lia. }
  destruct (Z_le_gt_dec e1 112) as [C2|C2].
  { rewrite S1 by lia.
    pose proof (Bsub e1 m1 ltac:(lia) M1) as U1.
    pose proof (Hb (rne_increment (2 ^ 23 + m1) (125 - e1))) as B1.
    assert (P1 : 2 ^ (e1 - 102) <= 2 ^ 10) by (apply Z.pow_le_mono_r; lia).
    change (2 ^ 10) with 1024 in P1.
    destruct (Z_le_gt_dec e2 112).
    - rewrite S2 by lia.
      destruct (Z.eq_dec e1 e2) as [Heq|Hne].
      + rewrite <- Heq. apply rne_monotone; [lia|].
        assert (m1 <= m2); [|lia]. rewrite <- Heq in E2. lia.
      + pose proof (Hb (rne_increment (2 ^ 23 + m2) (125 - e2))) as B2.
        assert (P2 : 2 * 2 ^ (e1 - 102) <= 2 ^ (e2 - 102)).
        { replace (2 * 2 ^ (e1 - 102)) with (2 ^ (e1 - 102 + 1))
            by (rewrite Z.pow_add_r by lia; change (2 ^ 1) with 2; lia).
          apply Z.pow_le_mono_r; lia. }
        assert (P3 : 2 ^ (e2 - 102) = 2 * 2 ^ (e2 - 103)).
        { replace (e2 - 102) with (e2 - 103 + 1) by lia.
          rewrite Z.pow_add_r by lia. change (2 ^ 1) with 2. lia. }
        assert (P4 : 0 < 2 ^ (e1 - 102)) by (apply Z.pow_pos_nonneg; lia).
        (* y1 <= 2^(e1-102) <= 2^(e2-103) <= y2 *)
        assert (L2' : 2 ^ (e2 - 103) <= (2 ^ 23 + m2) / 2 ^ (125 - e2 + 1)).
        { apply Z.div_le_lower_bound; [apply Z.pow_pos_nonneg; lia|].
          rewrite <- Z.pow_add_r by lia.
          replace (125 - e2 + 1 + (e2 - 103)) with 23 by lia. lia. }
        lia.
    - destruct (Z.eq_dec e2 143); [rewrite I2 by lia; lia|].
      rewrite N2 by lia.
      pose proof (Bnorm u2 ltac:(lia) ltac:(rewrite D2; fold e2; lia)).
      pose proof (Hb (rne_increment u2 12)). lia. }
  destruct (Z.eq_dec e1 143) as [C3|C3].
  { rewrite I1, I2 by lia. lia. }
  rewrite N1 by lia.
  pose proof (Bnorm u1 ltac:(lia) ltac:(rewrite D1; fold e1; lia)).
  pose proof (Hb (rne_increment u1 12)).
  destruct (Z.eq_dec e2 143); [rewrite I2 by lia; lia|].
  rewrite N2 by lia.
  pose proof (rne_monotone u1 u2 12 ltac:(lia) Hle). lia.
Qed.

Lemma float32_to_float16_monotone_witness :
  (0 <= 0x3f800000 /\ 0x3f800000 <= 0x40490fdb /\ 0x40490fdb < 0x48000000)
  /\ float32_to_float16 0x3f800000 <= float32_to_float16 0x40490fdb.
Proof.
  assert (H0 : 0 <= 0x3f800000) by lia.
  assert (H1 : 0x3f800000 <= 0x40490fdb) by lia.
  assert (H2 : 0x40490fdb < 0x48000000) by lia.
  split; [repeat split; assumption|].
  exact (float32_to_float16_monotone 0x3f800000 0x40490fdb H0 H1 H2).
Defined.

(** ** The named constants *)

(** X19: the named constants are the extremes their names say.  Among
    the values of all finite patterns, [fp16_max] (65504) is the
    largest and [fp16_min] (-65504) the smallest; among the positive
    ones, [fp16_min_positive_subnormal] ([2^-24]) is the smallest;
    [fp16_min_positive] ([2^-14]) is the smallest positive normal and
    [fp16_max_subnormal] the largest subnormal. *)
Theorem named_constants_are_extremes (h : Z) (negative : bool) (magnitude : Q) :
  is_uint16 h ->
  binary16_value h = Finite negative magnitude ->
  let v := HostFloat.signed negative magnitude in
  (- (65504) <= v <= 65504)%Q
  /\ same_value (binary16_value (data_ fp16_max)) (Finite false 65504) = true
  /\ same_value (binary16_value (data_ fp16_min)) (Finite true 65504) = true
  /\ (0 < v -> 2 ^ (-24) <= v)%Q
  /\ same_value (binary16_value (data_ fp16_min_positive_subnormal))
       (Finite false (2 ^ (-24))) = true
  /\ ((0 < v)%Q -> 1 <= exp_ h -> (2 ^ (-14) <= v)%Q)
  /\ same_value (binary16_value (data_ fp16_min_positive))
       (Finite false (2 ^ (-14))) = true
  /\ (exp_ h = 0 -> (v <= 1023 * 2 ^ (-24))%Q)
  /\ same_value (binary16_value (data_ fp16_max_subnormal))
       (Finite false (1023 * 2 ^ (-24))) = true.
Proof.
  intros Hh Hval. cbv zeta.
  pose proof (forall_uint16
    (fun h =>
       match binary16_value h with
       | Finite s m =>
           let v := HostFloat.signed s m in
           Qle_bool (- (65504)) v && Qle_bool v 65504
           && (Qle_bool v 0 || Qle_bool (2 ^ (-24)) v)
           && (Qle_bool v 0 || (exp_ h <? 1) || Qle_bool (2 ^ (-14)) v)
           && (negb (exp_ h =? 0) || Qle_bool v (1023 * 2 ^ (-24)))
       | _ => true
       end)
    ltac:(vm_cast_no_check (eq_refl true)) h Hh) as Hall.
  cbv beta zeta in Hall. rewrite Hval in Hall.
  set (v := HostFloat.signed negative magnitude) in *.
  apply andb_prop in Hall as [Hall H5]. apply andb_prop in Hall as [Hall H4].
  apply andb_prop in Hall as [Hall H3]. apply andb_prop in Hall as [H1 H2].
  apply Qle_bool_imp_le in H1, H2.
  split; [split; assumption|].
  split; [reflexivity|]. split; [reflexivity|].
  split.
  { intros Hpos. apply orb_prop in H3. destruct H3 as [H|H];
      apply Qle_bool_imp_le in H; [lra | assumption]. }
  split; [reflexivity|].
  split.
  { intros Hpos Hexp. apply orb_prop in H4. destruct H4 as [H|H];
      [apply orb_prop in H; destruct H as [H|H]|].
    - apply Qle_bool_imp_le in H. lra.
    - apply Z.ltb_lt in H. lia.
    - apply Qle_bool_imp_le in H. assumption. }
  split; [reflexivity|].
  split; [|reflexivity].
  intros Hexp. apply orb_prop in H5. destruct H5 as [H|H].
  - apply negb_true_iff, Z.eqb_neq in H. contradiction.
  - apply Qle_bool_imp_le in H. assumption.
Qed.

Lemma named_constants_are_extremes_witness :
  is_uint16 0x4248
  /\ (- (65504) <= inject_Z (2 ^ 10 + 0x248) * 2 ^ (16 - 25) <= 65504)%Q.
Proof.
  assert (H : is_uint16 0x4248) by (unfold is_uint16; simpl; lia).
  split; [exact H|].
  exact (proj1 (named_constants_are_extremes 0x4248 false
                  (inject_Z (2 ^ 10 + 0x248) * 2 ^ (16 - 25))%Q H eq_refl)).
Defined.

(** ** What [operator >>] does to the stream *)

(** X20: [operator >>] hands back the stream the host's extraction
    left, with nothing changed except that [failbit] is set whenever
    that stream was failed; in particular a stream left with [badbit]
    alone comes back with [failbit] as well, characters read stay read,
    and a good stream comes back as it is. *)
Theorem extract_stream_effect
  (host_extract_float : istream -> istream * Z) (is_ : istream) (f : float16_t) :
  let after_host := fst (host_extract_float is_) in
  let is' := fst (extract host_extract_float is_ f) in
  rdbuf is' = rdbuf after_host
  /\ eofbit (rdstate is') = eofbit (rdstate after_host)
  /\ badbit (rdstate is') = badbit (rdstate after_host)
  /\ failbit (rdstate is')
     = failbit (rdstate after_host) || badbit (rdstate after_host)
  /\ fail is' = fail after_host
  /\ (failbit (rdstate after_host) = true -> is' = after_host).
Proof.
  cbv zeta. unfold extract, to_bool, fail.
  destruct (host_extract_float is_) as [[buf [e fb bb]] v]. cbn.
  destruct fb, bb; cbn; repeat split; intros H; discriminate H.
Qed.

Lemma extract_stream_effect_witness :
  failbit (rdstate (fst (extract host_extract_one
                           (mk_istream [49%nat] (mk_iostate false false true))
                           fp16_one))) = true.
Proof.
  exact (proj1 (proj2 (proj2 (proj2
           (extract_stream_effect host_extract_one
              (mk_istream [49%nat] (mk_iostate false false true)) fp16_one))))).
Defined.

(** ** Round trip over all patterns *)

(** X1: what narrowing after widening gives for each of the 65536
    patterns: the pattern itself for the zeros, the normals and the
    infinities; the pattern with the quiet bit [0x200] set for a NaN;
    the pattern with exponent bit [0x400] set for a subnormal. *)
Theorem round_trip_all_patterns (h : Z) :
  is_uint16 h ->
  round_trip h
  = Some (if is_subnormal (of_bits h) then Z.lor h 0x400
          else if same_value (binary16_value h) NaN then Z.lor h 0x200
          else h).
Proof.
  intros Hh.
  destruct (is_subnormal (of_bits h)) eqn:Hsub.
  - exact (proj1 (round_trip_subnormal h Hh Hsub)).
  - destruct (exp_ h =? 0x1f) eqn:He.
    + pose proof (forall_uint16
        (fun h => if exp_ h =? 0x1f
                  then match round_trip h with
                       | Some r =>
                           r =? (if same_value (binary16_value h) NaN
                                 then Z.lor h 0x200 else h)
                       | None => false
                       end
                  else true)
        ltac:(vm_cast_no_check (eq_refl true)) h Hh) as Hall.
      cbv beta in Hall. rewrite He in Hall.
      destruct (round_trip h) as [r|]; [|discriminate].
      apply Z.eqb_eq in Hall. rewrite Hall. reflexivity.
    + rewrite (round_trip_unless_subnormal h Hh) by (rewrite ?He; reflexivity || exact Hsub).
      unfold binary16_value. cbv zeta. rewrite He.
      destruct (exp_ h =? 0); reflexivity.
Qed.

Lemma round_trip_all_patterns_witness :
  is_uint16 0x3c00 /\ round_trip 0x3c00 = Some 0x3c00.
Proof.
  assert (H : is_uint16 0x3c00) by (unfold is_uint16; simpl; lia).
  split; [exact H|]. exact (round_trip_all_patterns 0x3c00 H).
Defined.

(** ** The value of a widened pattern *)

(** X2: widening keeps the value of every pattern that is not
    subnormal (zeros with their sign, normals, infinities; a NaN stays
    a NaN).  On a subnormal the result has the same sign and a
    magnitude too large by exactly [2^-14]. *)
Theorem float16_to_float32_value (h : Z) :
  is_uint16 h ->
  exists f32,
    float16_to_float32 h = Some f32
    /\ is_uint32 f32
    /\ same_value (binary32_value f32)
         (if is_subnormal (of_bits h)
          then Finite (negb (sign_ h =? 0))
                      (inject_Z (frac_ h) * 2 ^ (-24) + 2 ^ (-14))%Q
          else binary16_value h) = true.
Proof.
  intros Hh.
  destruct (float16_to_float32_uint32 h Hh) as (r & Hr & Hrange).
  exists r. split; [exact Hr|]. split; [exact Hrange|].
  destruct (is_subnormal (of_bits h)) eqn:Hsub.
  - pose proof (float16_to_float32_subnormal h Hh Hsub) as Hform.
    rewrite Hr in Hform. injection Hform as ->.
    pose proof (forall_uint16
      (fun h => if is_subnormal (of_bits h)
                then same_value
                       (binary32_value
                          (Z.lor (Z.lor (Z.shiftl (Z.land h 0x8000) 16) 0x38800000)
                                 (Z.shiftl (Z.land h 0x3ff) 13)))
                       (Finite (negb (sign_ h =? 0))
                          (inject_Z (frac_ h) * 2 ^ (-24) + 2 ^ (-14))%Q)
                else true)
      ltac:(vm_cast_no_check (eq_refl true)) h Hh) as Hall.
    cbv beta in Hall. rewrite Hsub in Hall. exact Hall.
  - destruct (float16_to_float32_exact_unless_subnormal h Hh Hsub) as (r' & Hr' & Hv).
    rewrite Hr in Hr'. injection Hr' as <-. exact Hv.
Qed.

Lemma float16_to_float32_value_witness :
  is_uint16 0x7bff
  /\ exists f32, float16_to_float32 0x7bff = Some f32
       /\ is_uint32 f32
       /\ same_value (binary32_value f32) (binary16_value 0x7bff) = true.
Proof.
  assert (H : is_uint16 0x7bff) by (unfold is_uint16; simpl; lia).
  split; [exact H|]. exact (float16_to_float32_value 0x7bff H).
Defined.

(** X3: widening commutes with the sign operations: the widened
    [-f] is the widened [f] with bit 31 flipped, and the widened
    [abs f] is the widened [f] with bit 31 cleared. *)
Theorem to_float_neg_abs (f : float16_t) :
  is_uint16 (data_ f) ->
  exists f32,
    to_float f = Some f32
    /\ to_float (neg f) = Some (Z.lxor f32 0x80000000)
    /\ to_float (abs f) = Some (Z.land f32 0x7fffffff).
Proof.
  intros Hf. pose proof (neg_bits f Hf) as Hneg.
  destruct f as [b]. unfold to_float, abs. cbn [data_] in *.
  rewrite Hneg, land_0x7fff. clear Hneg.
  change 0x8000 with (2 ^ 15). change 0x80000000 with (2 ^ 31).
  change 0x7fffffff with (Z.ones 31).
  rewrite lxor_pow2, testbit_as_odd by lia.
  pose proof (Z.div_mod b (2 ^ 15) ltac:(lia)) as Hdm.
  pose proof (Z.mod_pos_bound b (2 ^ 15) ltac:(lia)) as Hl.
  assert (Hs : b / 2 ^ 15 = 0 \/ b / 2 ^ 15 = 1).
  { unfold is_uint16 in Hf. change (2 ^ 16) with (2 * 2 ^ 15) in Hf.
    assert (0 <= b / 2 ^ 15 < 2); [|lia].
    split; [apply Z.div_pos; lia | apply Z.div_lt_upper_bound; lia]. }
  pose proof (forall_bits_range 15
    (fun l => match float16_to_float32 l, float16_to_float32 (l + 2 ^ 15) with
              | Some r0, Some r1 => (0 <=? r0) && (r0 <? 2 ^ 31) && (r1 =? r0 + 2 ^ 31)
              | _, _ => false
              end) ltac:(vm_cast_no_check (eq_refl true)) (b mod 2 ^ 15) Hl) as Hall.
  cbv beta in Hall.
  set (l := b mod 2 ^ 15) in *.
  destruct (float16_to_float32 l) as [r0|] eqn:H0; [|discriminate].
  destruct (float16_to_float32 (l + 2 ^ 15)) as [r1|] eqn:H1; [|discriminate].
  apply andb_prop in Hall as [Hall E1]. apply andb_prop in Hall as [B0 B1].
  apply Z.leb_le in B0. apply Z.ltb_lt in B1. apply Z.eqb_eq in E1.
  assert (Hq0 : r0 / 2 ^ 31 = 0) by (apply Z.div_small; lia).
  assert (Hq1 : r1 / 2 ^ 31 = 1).
  { rewrite E1. symmetry. apply (Z.div_unique _ _ _ r0); lia. }
  assert (Hm0 : r0 mod 2 ^ 31 = r0) by (apply Z.mod_small; lia).
  assert (Hm1 : r1 mod 2 ^ 31 = r0).
  { rewrite E1. symmetry. apply (Z.mod_unique _ _ 1); lia. }
  destruct Hs as [Hs|Hs]; rewrite Hs in *; cbn [Z.odd].
  - assert (Hb : b = l) by lia. rewrite Hb, H0.
    exists r0. split; [reflexivity|].
    rewrite H1, lxor_pow2, testbit_as_odd, Hq0, Z.land_ones, Hm0 by lia.
    cbn [Z.odd]. split; congruence.
  - assert (Hb : b = l + 2 ^ 15) by lia. rewrite Hb, H1.
    replace (l + 2 ^ 15 - 2 ^ 15) with l by lia. rewrite H0.
    exists r1. split; [reflexivity|].
    rewrite lxor_pow2, testbit_as_odd, Hq1, Z.land_ones, Hm1 by lia.
    change (Z.odd 1) with true. cbv iota. split; f_equal; lia.
Qed.

Lemma to_float_neg_abs_witness :
  is_uint16 (data_ fp16_one)
  /\ exists f32, to_float fp16_one = Some f32
       /\ to_float (neg fp16_one) = Some (Z.lxor f32 0x80000000)
       /\ to_float (abs fp16_one) = Some (Z.land f32 0x7fffffff).
Proof.
  assert (H : is_uint16 (data_ fp16_one)) by (unfold is_uint16; simpl; lia).
  split; [exact H|]. exact (to_float_neg_abs fp16_one H).
Defined.
